(** * BentoPlanner preset generators: a shallow embedding

    The scripts under [scripts/] ([generate_main_dishes.py],
    [gen_simple.py], [generate_side_dishes.py],
    [generate_preset_recipes.py]) share one shape: a response
    extractor over the reply text, a batch generator with a bounded
    retry loop, a batch orchestrator, and, in [gen_simple.py], a merge
    into the persisted document.  This file embeds those functions and
    proves the properties stated about them. *)

From Stdlib Require Import String Ascii.
From Stdlib Require Import List ZArith NArith Lia Bool.
Import ListNotations.

Set Implicit Arguments.
Set Warnings "-register-all".

(** ** Exceptions and fallible results *)

(** The Python exceptions the embedded code can meet. *)
Inductive exn : Type :=
| IndexError
| ValueError
| AttributeError
| TypeError
| ZeroDivisionError
| JSONDecodeError
| APIError
| FileNotFoundError
| OSError.

(** A computation either returns a value or raises. *)
Inductive result (A : Type) : Type :=
| Ok (a : A)
| Raise (e : exn).

Arguments Ok {A} a.
Arguments Raise {A} e.

Definition bind {A B : Type} (r : result A) (k : A -> result B) : result B :=
  match r with
  | Ok a => k a
  | Raise e => Raise e
  end.

Notation "x <- r ;; k" := (bind r (fun x => k))
  (at level 61, r at next level, right associativity).

(** ** Python strings *)

(** A Python [str] is a sequence of Unicode code points. *)
Definition char : Type := N.
Definition str : Type := list char.

(** An ASCII literal as a [str]. *)
Definition lit (s : string) : str :=
  map N_of_ascii (list_ascii_of_string s).

Arguments lit s%_string.

(** [str.isspace] on one code point: the ASCII table of CPython
    (TAB..CR, FS..US, space) and the Unicode white space beyond it. *)
Definition isspace (c : char) : bool :=
  (((9 <=? c) && (c <=? 13)) || ((28 <=? c) && (c <=? 32))
   || (c =? 133) || (c =? 160) || (c =? 5760)
   || ((8192 <=? c) && (c <=? 8202))
   || (c =? 8232) || (c =? 8233) || (c =? 8239) || (c =? 8287)
   || (c =? 12288))%N.

Fixpoint lstrip (s : str) : str :=
  match s with
  | [] => []
  | c :: s' => if isspace c then lstrip s' else s
  end.

Definition rstrip (s : str) : str := rev (lstrip (rev s)).

(** [s.strip()] *)
Definition strip (s : str) : str := rstrip (lstrip s).

(** [s.startswith(p)] *)
Fixpoint startswith (p s : str) : bool :=
  match p, s with
  | [], _ => true
  | _ :: _, [] => false
  | a :: p', b :: s' => (a =? b)%N && startswith p' s'
  end.

(** [s.find(sep)]: the lowest index where [sep] occurs, [None] for
    Python's -1. *)
Fixpoint find (sep s : str) {struct s} : option nat :=
  if startswith sep s then Some 0
  else match s with
       | [] => None
       | _ :: s' => option_map S (find sep s')
       end.

(** [sep in s] *)
Definition contains (sep s : str) : bool :=
  match find sep s with
  | Some _ => true
  | None => false
  end.

(** The pieces of [s.split(sep)]: cut at the first occurrence, go on
    after it.  Every cut removes at least one character when [sep] is
    not empty, so [fuel = len(s)] cuts are enough. *)
Fixpoint split_from (fuel : nat) (sep s : str) : list str :=
  match fuel with
  | O => [s]
  | S fuel' =>
      match find sep s with
      | None => [s]
      | Some i => firstn i s :: split_from fuel' sep (skipn (i + length sep) s)
      end
  end.

(** [s.split(sep)]; an empty separator is a [ValueError]. *)
Definition split (sep s : str) : result (list str) :=
  match sep with
  | [] => Raise ValueError
  | _ :: _ => Ok (split_from (length s) sep s)
  end.

(** [l[i]] *)
Definition index {A : Type} (l : list A) (i : nat) : result A :=
  match nth_error l i with
  | Some a => Ok a
  | None => Raise IndexError
  end.

(** ** Response extractor *)

Definition FENCE : str := Eval cbv in lit "```".
Definition FENCE_JSON : str := Eval cbv in lit "```json".

(** The extraction every batch generator applies to the reply text
    ([generate_main_dishes.py] lines 119-123, and the same lines in the
    other three scripts):
<<
    if "```json" in response_text:
        response_text = response_text.split("```json")[1].split("```")[0].strip()
    elif "```" in response_text:
        response_text = response_text.split("```")[1].split("```")[0].strip()
>> *)
Definition response_extractor (response_text : str) : result str :=
  if contains FENCE_JSON response_text then
    pieces <- split FENCE_JSON response_text ;;
    after <- index pieces 1 ;;
    inner <- split FENCE after ;;
    body <- index inner 0 ;;
    Ok (strip body)
  else if contains FENCE response_text then
    pieces <- split FENCE response_text ;;
    after <- index pieces 1 ;;
    inner <- split FENCE after ;;
    body <- index inner 0 ;;
    Ok (strip body)
  else Ok response_text.

(** The extractor run on its own output. *)
Definition extract_twice (response_text : str) : result str :=
  once <- response_extractor response_text ;;
  response_extractor once.

(** *** What the statements about the extractor speak of *)

(** [sep] occurs in [s] at index [i]. *)
Definition occurs_at (sep s : str) (i : nat) : Prop :=
  exists a b, s = a ++ sep ++ b /\ length a = i.

(** The first occurrence of [sep] in [s] is at index [i]. *)
Definition first_occ (sep s : str) (i : nat) : Prop :=
  occurs_at sep s i /\ forall j, (j < i)%nat -> ~ occurs_at sep s j.

(** [sep] occurs nowhere in [s]. *)
Definition absent (sep s : str) : Prop :=
  forall i, ~ occurs_at sep s i.

(** ** JSON values, as [json.loads] builds them *)

(** A Python [float]: not a number, an infinity, or [(-1)^negative * m * 2^e]. *)
Inductive pyfloat : Type :=
| FNan
| FInf (negative : bool)
| FFinite (negative : bool) (m : N) (e : Z).

(** [dict] keeps insertion order: an association list, each key once. *)
Inductive json : Type :=
| JNull
| JBool (b : bool)
| JInt (z : Z)
| JFloat (f : pyfloat)
| JStr (s : str)
| JArr (items : list json)
| JObj (fields : list (str * json)).

Fixpoint str_eqb (a b : str) : bool :=
  match a, b with
  | [], [] => true
  | x :: a', y :: b' => (x =? y)%N && str_eqb a' b'
  | _, _ => false
  end.

(** [d.get(key)] on the items of a dict *)
Fixpoint dict_get (fields : list (str * json)) (key : str) : option json :=
  match fields with
  | [] => None
  | (k, v) :: rest => if str_eqb k key then Some v else dict_get rest key
  end.

(** [d[key] = v] on the items of a dict: in place when the key is
    there, appended otherwise. *)
Fixpoint dict_setitem (fields : list (str * json)) (key : str) (v : json)
  : list (str * json) :=
  match fields with
  | [] => [(key, v)]
  | (k, w) :: rest =>
      if str_eqb k key then (k, v) :: rest
      else (k, w) :: dict_setitem rest key v
  end.

Definition dict_keys (fields : list (str * json)) : list str := map fst fields.

(** [x.get(key, default)]: only a dict has the method. *)
Definition py_get (x : json) (key : str) (default : json) : result json :=
  match x with
  | JObj fields =>
      Ok (match dict_get fields key with Some v => v | None => default end)
  | _ => Raise AttributeError
  end.

(** [x[key] = v] with a [str] key: a dict takes it, a list wants an
    integer index, the rest support no item assignment. *)
Definition py_setitem (x : json) (key : str) (v : json) : result json :=
  match x with
  | JObj fields => Ok (JObj (dict_setitem fields key v))
  | _ => Raise TypeError
  end.

(** [len(x)] *)
Definition py_len (x : json) : result Z :=
  match x with
  | JStr s => Ok (Z.of_nat (length s))
  | JArr items => Ok (Z.of_nat (length items))
  | JObj fields => Ok (Z.of_nat (length fields))
  | _ => Raise TypeError
  end.

(** [bool(x)], the test of [if x:] *)
Definition py_bool (x : json) : bool :=
  match x with
  | JNull => false
  | JBool b => b
  | JInt z => negb (z =? 0)%Z
  | JFloat FNan => true
  | JFloat (FInf _) => true
  | JFloat (FFinite _ m _) => negb (m =? 0)%N
  | JStr s => negb (Nat.eqb (length s) 0)
  | JArr items => negb (Nat.eqb (length items) 0)
  | JObj fields => negb (Nat.eqb (length fields) 0)
  end.

(** [list(x)], what [for md in x] and [l.extend(x)] go through: the
    items of a list, the characters of a str, the keys of a dict. *)
Definition py_iter (x : json) : result (list json) :=
  match x with
  | JArr items => Ok items
  | JStr s => Ok (map (fun c => JStr [c]) s)
  | JObj fields => Ok (map (fun kv => JStr (fst kv)) fields)
  | _ => Raise TypeError
  end.

(** A list comprehension whose element expression may raise. *)
Fixpoint comprehension {A B : Type} (f : A -> result B) (l : list A)
  : result (list B) :=
  match l with
  | [] => Ok []
  | a :: l' => b <- f a ;; bs <- comprehension f l' ;; Ok (b :: bs)
  end.

(** [range(n)] *)
Definition range (n : Z) : list Z := map Z.of_nat (seq 0 (Z.to_nat n)).

(** [l[-n:]] *)
Definition last_n {A : Type} (n : nat) (l : list A) : list A :=
  skipn (length l - n) l.

Definition len {A : Type} (l : list A) : Z := Z.of_nat (length l).

(** ** The outside world: the client, the clock, the console *)

Inductive script : Type :=
| MainDishes      (* generate_main_dishes.py *)
| SimpleMainDishes (* gen_simple.py *)
| SideDishes      (* generate_side_dishes.py *)
| Recipes.        (* generate_preset_recipes.py *)

(** [category_info]: one entry of [CATEGORIES]. *)
Record category_info : Type := CategoryInfo {
  info_name : str;
  info_description : str
}.

(** One call of [client.chat.completions.create]: the script stands
    for its fixed system message, temperature and prompt text, the
    other fields are the values interpolated into the prompt.
    [prompt_existing_names] lists the names of [existing_names_text]
    (none when that text is empty). *)
Record request : Type := Request {
  request_script : script;
  prompt_count : Z;
  prompt_category : option (str * category_info);
  prompt_existing_names : list json;
  prompt_method_distribution : list (str * Z)
}.

(** The console lines of the embedded functions. *)
Inductive msg : Type :=
| MsgApiCall (attempt max : Z)
| MsgApiReply
| MsgExpected (count got : Z)
| MsgJsonDecodeError (attempt max : Z)
| MsgError (attempt max : Z) (e : exn)
| MsgGenerating (total_count : Z)
| MsgBatch (batch_num batches batch_size : Z)
| MsgTotal (collected total_count : Z)
| MsgBatchFailed (batch_num : Z)
| MsgCompleted (collected : Z)
| MsgDistribution (methods : list (str * Z))
| MsgNotFound
| MsgUpdated
| MsgSummary (key : str) (count : Z).

Inductive event : Type :=
| Print (m : msg)
| Create (rq : request)
| Sleep (seconds : Z)
| Dump (document : json).

(** The calls and pauses of a trace, the console left out. *)
Inductive pace : Type :=
| Call
| Pause (seconds : Z).

Fixpoint pacing (tr : list event) : list pace :=
  match tr with
  | [] => []
  | Create _ :: tr' => Call :: pacing tr'
  | Sleep n :: tr' => Pause n :: pacing tr'
  | _ :: tr' => pacing tr'
  end.

(** The requested counts of the batches announced in a trace. *)
Fixpoint requested (tr : list event) : list Z :=
  match tr with
  | [] => []
  | Print (MsgBatch _ _ batch_size) :: tr' => batch_size :: requested tr'
  | _ :: tr' => requested tr'
  end.

(** The batches a trace records as skipped. *)
Fixpoint skipped (tr : list event) : list Z :=
  match tr with
  | [] => []
  | Print (MsgBatchFailed batch_num) :: tr' => batch_num :: skipped tr'
  | _ :: tr' => skipped tr'
  end.

(** The prompts sent in a trace. *)
Fixpoint requests (tr : list event) : list request :=
  match tr with
  | [] => []
  | Create rq :: tr' => rq :: requests tr'
  | _ :: tr' => requests tr'
  end.

Definition sum (l : list Z) : Z := fold_right Z.add 0%Z l.

(** [k] failed attempts, each followed by its pause. *)
Fixpoint failures (k : nat) : list pace :=
  match k with
  | O => []
  | S k' => Call :: Pause 3 :: failures k'
  end.

Local Open Scope Z_scope.

Section Generator.

(** The state of the backend behind the global [client]. *)
Variable World : Type.

(** [client.chat.completions.create(...).choices[0].message.content]:
    the reply text, or the exception raised on the way to it. *)
Variable create : World -> request -> result str * World.

(** [json.loads]; [None] is [json.JSONDecodeError]. *)
Variable loads : str -> option json.

Record state : Type := State {
  world : World;
  trace : list event
}.

Definition emit (e : event) (st : state) : state :=
  {| world := world st; trace := trace st ++ [e] |}.

Definition print (m : msg) : state -> state := emit (Print m).

(** [time.sleep(seconds)] *)
Definition sleep (seconds : Z) : state -> state := emit (Sleep seconds).

Definition json_loads (text : str) : result json :=
  match loads text with
  | Some data => Ok data
  | None => Raise JSONDecodeError
  end.

(** ** Batch generator *)

Definition max_retries : Z := 3.

(** What follows the reply inside the [try]: strip, extract, parse,
    read the items out, take their length. *)
Definition parse_reply (items_key : str) (content : str)
  : result (json * Z) :=
  let response_text := strip content in
  response_text <- response_extractor response_text ;;
  data <- json_loads response_text ;;
  main_dishes <- py_get data items_key (JArr []) ;;
  n <- py_len main_dishes ;;
  Ok (main_dishes, n).

(** The body of the [try] of one attempt. *)
Definition try_attempt (rq : request) (items_key : str) (count attempt : Z)
    (st : state) : result json * state :=
  let st := print (MsgApiCall (attempt + 1) max_retries) st in
  let st := emit (Create rq) st in
  let (reply, w) := create (world st) rq in
  let st := {| world := w; trace := trace st |} in
  match reply with
  | Raise e => (Raise e, st)
  | Ok content =>
      let st := print MsgApiReply st in
      match parse_reply items_key content with
      | Raise e => (Raise e, st)
      | Ok (main_dishes, n) =>
          if n =? count then (Ok main_dishes, st)
          else (Ok main_dishes, print (MsgExpected count n) st)
      end
  end.

(** The line of the [except] clause that catches [e]. *)
Definition except_msg (attempt : Z) (e : exn) : msg :=
  match e with
  | JSONDecodeError => MsgJsonDecodeError (attempt + 1) max_retries
  | _ => MsgError (attempt + 1) max_retries e
  end.

(** [for attempt in range(max_retries): try: ... except ...], then
    the [return []] after the loop. *)
Fixpoint retry_loop (attempts : list Z) (rq : request) (items_key : str)
    (count : Z) (st : state) : json * state :=
  match attempts with
  | [] => (JArr [], st)
  | attempt :: rest =>
      match try_attempt rq items_key count attempt st with
      | (Ok main_dishes, st) => (main_dishes, st)
      | (Raise e, st) =>
          let st := print (except_msg attempt e) st in
          if attempt <? max_retries - 1
          then retry_loop rest rq items_key count (sleep 3 st)
          else (JArr [], st)
      end
  end.

(** The retry loop the four batch generators share. *)
Definition generate_batch (rq : request) (items_key : str) (count : Z)
    (st : state) : json * state :=
  retry_loop (range max_retries) rq items_key count st.

(** The prompt of [generate_main_dishes_batch]. *)
Definition main_dishes_request (category_key : str)
    (category_info : category_info) (count : Z) (existing_names : list json)
    : request :=
  {| request_script := MainDishes;
     prompt_count := count;
     prompt_category := Some (category_key, category_info);
     prompt_existing_names := existing_names;
     prompt_method_distribution := [] |}.

(** [generate_main_dishes.py] *)
Definition generate_main_dishes_batch (category_key : str)
    (category_info : category_info) (count : Z) (existing_names : list json)
    : state -> json * state :=
  generate_batch
    (main_dishes_request category_key category_info count existing_names)
    (lit "mainDishes") count.

(** The prompt of [generate_simple_main_dishes_batch]. *)
Definition simple_request (count : Z) (existing_names : list json) : request :=
  {| request_script := SimpleMainDishes;
     prompt_count := count;
     prompt_category := None;
     prompt_existing_names := existing_names;
     prompt_method_distribution := [] |}.

(** [gen_simple.py] *)
Definition generate_simple_main_dishes_batch (count : Z)
    (existing_names : list json) : state -> json * state :=
  generate_batch (simple_request count existing_names)
    (lit "mainDishes") count.

(** The prompt of [generate_side_dishes_batch]: it lists
    [existing_names[-20:]]. *)
Definition side_dishes_request (count : Z) (existing_names : list json)
    (existing_methods : list (str * Z)) : request :=
  {| request_script := SideDishes;
     prompt_count := count;
     prompt_category := None;
     prompt_existing_names := last_n 20 existing_names;
     prompt_method_distribution := existing_methods |}.

(** [generate_side_dishes.py] *)
Definition generate_side_dishes_batch (count : Z)
    (existing_names : list json) (existing_methods : list (str * Z))
    : state -> json * state :=
  generate_batch (side_dishes_request count existing_names existing_methods)
    (lit "sideDishes") count.

(** The prompt of [generate_recipes_batch]. *)
Definition recipes_request (category_key : str)
    (category_info : category_info) (count : Z) (existing_names : list json)
    : request :=
  {| request_script := Recipes;
     prompt_count := count;
     prompt_category := Some (category_key, category_info);
     prompt_existing_names := existing_names;
     prompt_method_distribution := [] |}.

(** [generate_preset_recipes.py] *)
Definition generate_recipes_batch (category_key : str)
    (category_info : category_info) (count : Z) (existing_names : list json)
    : state -> json * state :=
  generate_batch
    (recipes_request category_key category_info count existing_names)
    (lit "recipes") count.

(** *** What the statements about the batch generator speak of *)

(** What an attempt makes of the reply: the items it returns, or the
    exception one of the [except] clauses catches. *)
Definition attempt_value (items_key : str) (reply : result str) : result json :=
  content <- reply ;;
  r <- parse_reply items_key content ;;
  Ok (fst r).

(** The attempt fails: the client raised, or the reply did not parse
    into something with items. *)
Definition reply_fails (items_key : str) (reply : result str) : bool :=
  match attempt_value items_key reply with
  | Ok _ => false
  | Raise _ => true
  end.

(** The backend after [j] calls with [rq], and its reply to the next. *)
Fixpoint world_after (rq : request) (j : nat) (w : World) : World :=
  match j with
  | O => w
  | S j' => world_after rq j' (snd (create w rq))
  end.

Definition reply_at (rq : request) (j : nat) (w : World) : result str :=
  fst (create (world_after rq j w) rq).

End Generator.

(** ** Batch orchestrator *)

Definition is_object (x : json) : bool :=
  match x with
  | JObj _ => true
  | _ => false
  end.

(** A batch as the data model has it: nothing, or a list of item
    objects. *)
Definition well_formed (b : json) : bool :=
  match b with
  | JArr items => forallb is_object items
  | _ => negb (py_bool b)
  end.

Section Orchestrator.

Variable World : Type.

(** The distribution context: nothing, or the tally of cooking
    methods of the side dishes. *)
Variable Dist : Type.

(** The module constant [BATCH_SIZE], left open. *)
Variable batch_limit : Z.

(** The batch generator of the script, and its update of the
    distribution context after a batch that produced something. *)
Variable batch : Z -> list json -> Dist -> state World -> json * state World.
Variable tally : list json -> Dist -> result Dist.

(** The run accumulator: the locals [all_main_dishes],
    [existing_names] (and [existing_methods]) of the orchestrator. *)
Record accumulator : Type := Accumulator {
  all_dishes : list json;
  existing_names : list json;
  existing_methods : Dist
}.

(** [md.get("name", "")] *)
Definition item_name (md : json) : result json :=
  py_get md (lit "name") (JStr []).

(** The body of [for batch_num in range(batches)]. *)
Definition batch_body (total_count batches : Z) (acc : accumulator)
    (st : state World) (batch_num : Z) : result (accumulator * state World) :=
  let remaining := total_count - len (all_dishes acc) in
  let batch_size := Z.min batch_limit remaining in
  let st := print (MsgBatch (batch_num + 1) batches batch_size) st in
  let (batch_dishes, st) :=
    batch batch_size (existing_names acc) (existing_methods acc) st in
  if py_bool batch_dishes then
    items <- py_iter batch_dishes ;;
    names <- comprehension item_name items ;;
    methods <- tally items (existing_methods acc) ;;
    let acc := {| all_dishes := all_dishes acc ++ items;
                  existing_names := existing_names acc ++ names;
                  existing_methods := methods |} in
    let st := print (MsgTotal (len (all_dishes acc)) total_count) st in
    Ok (acc, sleep 1 st)
  else
    let st := print (MsgBatchFailed (batch_num + 1)) st in
    Ok (acc, sleep 1 st).

Definition loop_step (total_count batches : Z)
    (r : result (accumulator * state World)) (batch_num : Z)
    : result (accumulator * state World) :=
  p <- r ;; batch_body total_count batches (fst p) (snd p) batch_num.

(** The loop over the batch numbers [nums]. *)
Definition batch_loop (total_count batches : Z) (nums : list Z)
    (start : accumulator * state World) : result (accumulator * state World) :=
  fold_left (loop_step total_count batches) nums (Ok start).

Definition batch_count (total_count : Z) : Z :=
  (total_count + batch_limit - 1) / batch_limit.

Definition fresh (methods : Dist) : accumulator :=
  {| all_dishes := []; existing_names := []; existing_methods := methods |}.

(** The state in which batch number [k] starts. *)
Definition before_batch (total_count : Z) (methods : Dist) (st : state World)
    (k : nat) : result (accumulator * state World) :=
  batch_loop total_count (batch_count total_count) (range (Z.of_nat k))
    (fresh methods, st).

(** [batches = (total_count + BATCH_SIZE - 1) // BATCH_SIZE], then the
    loop. *)
Definition run_batches (total_count : Z) (methods : Dist) (st : state World)
    : result (accumulator * state World) :=
  if batch_limit =? 0 then Raise ZeroDivisionError
  else
    let batches := batch_count total_count in
    batch_loop total_count batches (range batches) (fresh methods, st).

(** *** What the statements about the orchestrator speak of *)

(** The count batch number [k] asks for, and what it gets. *)
Definition batch_size_at (total_count : Z) (acc : accumulator) : Z :=
  Z.min batch_limit (total_count - len (all_dishes acc)).

Definition call_batch (total_count batches : Z) (p : accumulator * state World)
    (batch_num : Z) : json * state World :=
  batch (batch_size_at total_count (fst p))
    (existing_names (fst p)) (existing_methods (fst p))
    (print (MsgBatch (batch_num + 1) batches (batch_size_at total_count (fst p)))
       (snd p)).

Definition request_size (total_count : Z) (methods : Dist) (st : state World)
    (k : nat) : result Z :=
  p <- before_batch total_count methods st k ;;
  Ok (batch_size_at total_count (fst p)).

Definition batch_result (total_count : Z) (methods : Dist) (st : state World)
    (k : nat) : result json :=
  p <- before_batch total_count methods st k ;;
  Ok (fst (call_batch total_count (batch_count total_count) p (Z.of_nat k))).

(** Batch number [k] came back empty. *)
Definition empty_batch (total_count : Z) (methods : Dist) (st : state World)
    (k : nat) : bool :=
  match batch_result total_count methods st k with
  | Ok b => negb (py_bool b)
  | Raise _ => false
  end.

(** The whole orchestrator: announce, loop, report, return the dishes. *)
Definition orchestrate (total_count : Z) (methods : Dist) (st : state World)
    : result (accumulator * state World) :=
  let st := print (MsgGenerating total_count) st in
  p <- run_batches total_count methods st ;;
  let st := print (MsgCompleted (len (all_dishes (fst p)))) (snd p) in
  Ok (fst p, st).

End Orchestrator.

Definition BATCH_SIZE : Z := 5.
Definition MAIN_DISHES_PER_CATEGORY : Z := 50.
Definition TOTAL_COUNT : Z := 50.

(** [COOKING_METHODS] of [generate_side_dishes.py], as code points. *)
Definition COOKING_METHODS : list str :=
  [ [12365; 12435; 12404; 12425]; [29038; 29289]; [21644; 12360; 29289];
    [28818; 12417; 29289]; [28988; 12365; 29289]; [25562; 12370; 29289];
    [33976; 12375; 29289]; [28460; 29289]; [12469; 12521; 12480];
    [12510; 12522; 12493] ]%N.

(** The default label of [sd.get("cookingMethod", ...)]. *)
Definition OTHER_METHOD : str := [12381; 12398; 20182]%N.

(** [method in existing_methods]: a list or a dict is unhashable. *)
Definition method_known (method : json) (methods : list (str * Z))
  : result bool :=
  match method with
  | JArr _ | JObj _ => Raise TypeError
  | JStr s => Ok (existsb (fun kv => str_eqb (fst kv) s) methods)
  | _ => Ok false
  end.

(** [existing_methods[method] += 1] for a label that is a key. *)
Fixpoint increment (methods : list (str * Z)) (label : str) : list (str * Z) :=
  match methods with
  | [] => []
  | (k, n) :: rest =>
      if str_eqb k label then (k, n + 1) :: rest
      else (k, n) :: increment rest label
  end.

(** The update of the cooking-method counts after a batch. *)
Fixpoint count_methods (batch_side_dishes : list json)
    (existing_methods : list (str * Z)) : result (list (str * Z)) :=
  match batch_side_dishes with
  | [] => Ok existing_methods
  | sd :: rest =>
      method <- py_get sd (lit "cookingMethod") (JStr OTHER_METHOD) ;;
      known <- method_known method existing_methods ;;
      count_methods rest
        (match method with
         | JStr label => if known then increment existing_methods label
                         else existing_methods
         | _ => existing_methods
         end)
  end.

(** [sorted(..., key=lambda x: x[1], reverse=True)]: stable, largest
    count first. *)
Fixpoint insert_desc (kv : str * Z) (l : list (str * Z)) : list (str * Z) :=
  match l with
  | [] => [kv]
  | kv' :: l' => if snd kv' <? snd kv then kv :: l
                 else kv' :: insert_desc kv l'
  end.

Definition sorted_desc (l : list (str * Z)) : list (str * Z) :=
  fold_left (fun acc kv => insert_desc kv acc) l [].

(** What a run reads from and may fail to write to the document path. *)
Record files : Type := Files {
  read_existing : result json;   (* [open(input_path)] and [json.load] *)
  write_error : option exn       (* raised by [open(output_path, "w")] *)
}.

Section Scripts.

Variable World : Type.
Variable create : World -> request -> result str * World.
Variable loads : str -> option json.

Let state := state World.

(** The scripts without a distribution context tally nothing. *)
Definition no_tally (batch_dishes : list json) (u : unit) : result unit := Ok u.

Definition main_dishes_batch (category_key : str)
    (category_info : category_info) (count : Z) (existing_names : list json)
    (u : unit) : state -> json * state :=
  generate_main_dishes_batch create loads category_key category_info
    count existing_names.

Definition main_dishes_orchestrator (batch_limit : Z) (category_key : str)
    (category_info : category_info) (total_count : Z) (st : state)
    : result (accumulator unit * state) :=
  orchestrate batch_limit (main_dishes_batch category_key category_info)
    no_tally total_count tt st.

(** [generate_main_dishes.py] *)
Definition generate_main_dishes_for_category (category_key : str)
    (category_info : category_info) (total_count : Z) (st : state)
    : result (list json * state) :=
  p <- main_dishes_orchestrator BATCH_SIZE category_key category_info
         total_count st ;;
  Ok (all_dishes (fst p), snd p).

Definition recipes_batch (category_key : str)
    (category_info : category_info) (count : Z) (existing_names : list json)
    (u : unit) : state -> json * state :=
  generate_recipes_batch create loads category_key category_info
    count existing_names.

Definition recipes_orchestrator (batch_limit : Z) (category_key : str)
    (category_info : category_info) (total_count : Z) (st : state)
    : result (accumulator unit * state) :=
  orchestrate batch_limit (recipes_batch category_key category_info)
    no_tally total_count tt st.

(** [generate_preset_recipes.py] *)
Definition generate_recipes_for_category (category_key : str)
    (category_info : category_info) (total_count : Z) (st : state)
    : result (list json * state) :=
  p <- recipes_orchestrator BATCH_SIZE category_key category_info
         total_count st ;;
  Ok (all_dishes (fst p), snd p).

Definition side_dishes_batch : Z -> list json -> list (str * Z) ->
    state -> json * state :=
  generate_side_dishes_batch create loads.

Definition side_dishes_orchestrator (batch_limit : Z) (total_count : Z)
    (st : state) : result (accumulator (list (str * Z)) * state) :=
  orchestrate batch_limit side_dishes_batch count_methods total_count
    (map (fun method => (method, 0)) COOKING_METHODS) st.


Definition simple_batch (count : Z) (existing_names : list json) (u : unit)
    : state -> json * state :=
  generate_simple_main_dishes_batch create loads count existing_names.

Definition simple_orchestrator (batch_limit : Z) (total_count : Z)
    (st : state) : result (accumulator unit * state) :=
  orchestrate batch_limit simple_batch no_tally total_count tt st.

(** ** Aggregator/merger ([gen_simple.py], [main]) *)

Definition EMPTY_CATEGORIES : json :=
  JObj [ (lit "omakase", JArr []); (lit "hearty", JArr []);
         (lit "fishMain", JArr []); (lit "simple", JArr []) ].

(** The [try]/[except FileNotFoundError] around the read: the loaded
    document, the empty categories when the file is not there; any
    other exception goes up. *)
Definition load_categories (existing : result json) (st : state)
    : result (json * state) :=
  match existing with
  | Ok all_categories => Ok (all_categories, st)
  | Raise FileNotFoundError => Ok (EMPTY_CATEGORIES, print MsgNotFound st)
  | Raise e => Raise e
  end.

(** Read, then [all_categories["simple"] = all_main_dishes]. *)
Definition merge_simple (existing : result json) (all_main_dishes : json)
    (st : state) : result (json * state) :=
  p <- load_categories existing st ;;
  all_categories <- py_setitem (fst p) (lit "simple") all_main_dishes ;;
  Ok (all_categories, snd p).

(** [json.dump(all_categories, f, ...)] inside [with open(...)]. *)
Definition dump (fs : files) (document : json) (st : state) : result state :=
  match write_error fs with
  | Some e => Raise e
  | None => Ok (emit (Dump document) st)
  end.

(** The summary loop over [all_categories.items()]. *)
Fixpoint summary (fields : list (str * json)) (st : state) : result state :=
  match fields with
  | [] => Ok st
  | (category_key, main_dishes) :: rest =>
      n <- py_len main_dishes ;;
      summary rest (print (MsgSummary category_key n) st)
  end.

(** [gen_simple.py], [main]. *)
Definition main (fs : files) (st : state) : result (json * state) :=
  p <- simple_orchestrator BATCH_SIZE TOTAL_COUNT st ;;
  q <- merge_simple (read_existing fs) (JArr (all_dishes (fst p))) (snd p) ;;
  st <- dump fs (fst q) (snd q) ;;
  let st := print MsgUpdated st in
  fields <- match fst q with
            | JObj fields => Ok fields
            | _ => Raise AttributeError
            end ;;
  st <- summary fields st ;;
  Ok (fst q, st).

End Scripts.

(** [s.split(sep)[0]] read off [find]: the text before the first
    occurrence of [sep], all of [s] when there is none. *)
Definition cut (sep s : str) : str :=
  match find sep s with
  | Some i => firstn i s
  | None => s
  end.

(** ** Backends to run the scripts against *)

(** A backend that is down: every call raises. *)
Definition down_create (w : unit) (rq : request) : result str * unit :=
  (Raise APIError, w).

Definition no_loads (text : str) : option json := None.

(** An item named by one character. *)
Definition toy_item (c : char) : json := JObj [(lit "name", JStr [c])].

(** A toy [json.loads]: the text [k] stands for an object without the
    items, the text [a] for a top-level list of one item, any other
    text for one item named by each of its characters, under both
    item keys. *)
Definition toy_loads (text : str) : option json :=
  if str_eqb text (lit "k") then Some (JObj [(lit "other", JInt 1)])
  else if str_eqb text (lit "a") then Some (JArr [toy_item 97%N])
  else Some (JObj [(lit "mainDishes", JArr (map toy_item text));
                   (lit "recipes", JArr (map toy_item text))]).

(** A backend that raises once, then answers with a fenced block of
    two items whatever the count asked for. *)
Definition flaky_create (calls : nat) (rq : request) : result str * nat :=
  match calls with
  | O => (Raise APIError, S calls)
  | S _ => (Ok (lit "```json
xy
```"), S calls)
  end.

(** A backend that answers with as many items as the prompt asks for. *)
Definition exact_create (w : unit) (rq : request) : result str * unit :=
  (Ok (repeat 120%N (Z.to_nat (prompt_count rq))), w).

(** A backend whose replies hold no items key. *)
Definition keyless_create (w : unit) (rq : request) : result str * unit :=
  (Ok (lit "k"), w).

(** A backend whose replies are a top-level list. *)
Definition listing_create (w : unit) (rq : request) : result str * unit :=
  (Ok (lit "a"), w).



Definition start {World : Type} (w : World) : state World :=
  {| world := w; trace := [] |}.

Definition some_category : category_info :=
  {| info_name := lit "omakase"; info_description := lit "balanced" |}.

(** ** The entry points of the other scripts *)

(** [CATEGORIES] of [generate_main_dishes.py] and
    [generate_preset_recipes.py] (the same table in both), the names
    and descriptions as code points. *)
Definition CATEGORIES : list (str * category_info) :=
  [ (lit "omakase",
     {| info_name := [12362; 12414; 12363; 12379]%N;
        info_description :=
          [12496; 12521; 12531; 12473; 37325; 35222; 12398; 19975; 33021;
           12362; 24321; 24403]%N |});
    (lit "hearty",
     {| info_name := [12364; 12387; 12388; 12426]%N;
        info_description :=
          [12508; 12522; 12517; 12540; 12512; 28288; 28857; 12539; 28288;
           36275; 24863; 12383; 12387; 12407; 12426]%N |});
    (lit "fishMain",
     {| info_name := [12362; 39770; 24321; 24403]%N;
        info_description :=
          [39770; 12434; 12513; 12452; 12531; 12395; 12375; 12383; 21644;
           39080; 24321; 24403]%N |});
    (lit "simple",
     {| info_name := [31777; 21336; 24321; 24403]%N;
        info_description :=
          [26178; 30701; 12539; 31777; 21336; 12395; 20316; 12428; 12427;
           12362; 24321; 24403]%N |}) ].

Definition RECIPES_PER_CATEGORY : Z := 50.

(** [CATEGORIES[category_key]] *)
Fixpoint category_of (categories : list (str * category_info)) (key : str)
  : option category_info :=
  match categories with
  | [] => None
  | (k, info) :: rest => if str_eqb k key then Some info else category_of rest key
  end.

(** How an entry point ends: it returns, or an exception goes up
    uncaught: one of those above, or the [KeyError] of a dict
    subscript. *)
Inductive finished (A : Type) : Type :=
| Returned (a : A)
| Uncaught (e : exn)
| UncaughtKeyError (key : str).

Arguments Returned {A} a.
Arguments Uncaught {A} e.
Arguments UncaughtKeyError {A} key.

(** The documents written in a trace. *)
Fixpoint dumps (tr : list event) : list json :=
  match tr with
  | [] => []
  | Dump document :: tr' => document :: dumps tr'
  | _ :: tr' => dumps tr'
  end.

(** The calls of a pacing, and the seconds slept in it. *)
Fixpoint calls (p : list pace) : Z :=
  match p with
  | [] => 0
  | Call :: p' => 1 + calls p'
  | Pause _ :: p' => calls p'
  end.

Fixpoint slept (p : list pace) : Z :=
  match p with
  | [] => 0
  | Call :: p' => slept p'
  | Pause seconds :: p' => seconds + slept p'
  end.

Section EntryPoints.

Variable World : Type.
Variable create : World -> request -> result str * World.
Variable loads : str -> option json.

(** [for category_key, category_info in CATEGORIES.items():] with the
    body [all[category_key] = generate(category_key, category_info,
    per_category)]. *)
Fixpoint generate_categories
    (generate : str -> category_info -> Z -> state World ->
                result (list json * state World))
    (per_category : Z) (categories : list (str * category_info))
    (all : list (str * json)) (st : state World)
  : result (list (str * json) * state World) :=
  match categories with
  | [] => Ok (all, st)
  | (category_key, category_info) :: rest =>
      p <- generate category_key category_info per_category st ;;
      generate_categories generate per_category rest
        (dict_setitem all category_key (JArr (fst p))) (snd p)
  end.

(** The summary loop: one line per key, with
    [CATEGORIES[category_key]['name']] and [len(main_dishes)]. *)
Fixpoint category_summary (all : list (str * json)) (st : state World)
  : finished (state World) :=
  match all with
  | [] => Returned st
  | (category_key, dishes) :: rest =>
      match category_of CATEGORIES category_key with
      | None => UncaughtKeyError category_key
      | Some info =>
          match py_len dishes with
          | Raise e => Uncaught e
          | Ok n => category_summary rest (print (MsgSummary (info_name info) n) st)
          end
      end
  end.

(** The [main] of [generate_main_dishes.py] and of
    [generate_preset_recipes.py], by the orchestrator it runs. *)
Definition categories_main
    (generate : str -> category_info -> Z -> state World ->
                result (list json * state World))
    (per_category : Z) (fs : files) (st : state World)
  : finished (json * state World) :=
  match generate_categories generate per_category CATEGORIES [] st with
  | Raise e => Uncaught e
  | Ok (all, st) =>
      match dump fs (JObj all) st with
      | Raise e => Uncaught e
      | Ok st =>
          match category_summary all (print MsgUpdated st) with
          | Returned st => Returned (JObj all, st)
          | Uncaught e => Uncaught e
          | UncaughtKeyError key => UncaughtKeyError key
          end
      end
  end.

(** [generate_main_dishes.py], [main] *)
Definition generate_main_dishes_main : files -> state World ->
    finished (json * state World) :=
  categories_main (generate_main_dishes_for_category create loads)
    MAIN_DISHES_PER_CATEGORY.

(** [generate_preset_recipes.py], [main] *)
Definition generate_preset_recipes_main : files -> state World ->
    finished (json * state World) :=
  categories_main (generate_recipes_for_category create loads)
    RECIPES_PER_CATEGORY.


End EntryPoints.

(** *** What the further statements speak of *)

(** The dishes batch number [k] of a run adds to the collection. *)
Definition batch_items {World Dist : Type} (batch_limit : Z)
    (batch : Z -> list json -> Dist -> state World -> json * state World)
    (tally : list json -> Dist -> result Dist)
    (total_count : Z) (methods : Dist) (st : state World) (k : nat)
  : list json :=
  match batch_result batch_limit batch tally total_count methods st k with
  | Ok b =>
      if py_bool b
      then match py_iter b with Ok items => items | Raise _ => [] end
      else []
  | Raise _ => []
  end.

(** The side dish is an object whose cooking method can be looked up
    in a dict: anything but a list or an object. *)
Definition tallyable (sd : json) : bool :=
  match py_get sd (lit "cookingMethod") (JStr OTHER_METHOD) with
  | Ok (JArr _) | Ok (JObj _) => false
  | Ok _ => true
  | Raise _ => false
  end.

(** A side dish named by one character, simmered when it is [x]. *)
Definition side_item (c : char) : json :=
  JObj [ (lit "name", JStr [c]);
         (lit "cookingMethod",
          JStr (if (c =? 120)%N then [29038; 29289]%N else [c])) ].

(** A toy [json.loads] for side dishes: one dish per character. *)
Definition side_loads (text : str) : option json :=
  Some (JObj [(lit "sideDishes", JArr (map side_item text))]).

Definition is_array (x : json) : bool :=
  match x with
  | JArr _ => true
  | _ => false
  end.

(** No document yet, and a disk that can be written. *)
Definition no_document : files :=
  {| read_existing := Raise FileNotFoundError; write_error := None |}.

(** [existing_methods.get(label)] *)
Fixpoint method_get (methods : list (str * Z)) (label : str) : option Z :=
  match methods with
  | [] => None
  | (k, n) :: rest => if str_eqb k label then Some n else method_get rest label
  end.

(** The cooking method of the side dish is the string [label]. *)
Definition has_method (label : str) (sd : json) : bool :=
  match py_get sd (lit "cookingMethod") (JStr OTHER_METHOD) with
  | Ok (JStr l) => str_eqb l label
  | _ => false
  end.

(** * Properties *)

Unset Implicit Arguments.

(** ** Strings: occurrences, [find], [split] *)

Section StringFacts.

Implicit Types sep s p a b : str.

Lemma skipn_length_app a s : skipn (length a) (a ++ s) = s.
Proof. induction a; simpl; auto. Qed.

Lemma firstn_length_app a s : firstn (length a) (a ++ s) = a.
Proof. induction a; simpl; congruence. Qed.

Lemma startswith_app p b : startswith p (p ++ b) = true.
Proof. induction p; simpl; auto. rewrite N.eqb_refl; auto. Qed.

Lemma startswith_inv p s : startswith p s = true -> exists b, s = p ++ b.
Proof.
  revert s; induction p as [|c p IH]; intros s H; simpl in *.
  - now exists s.
  - destruct s as [|d s]; [discriminate|].
    apply andb_true_iff in H as [E H]. apply N.eqb_eq in E as ->.
    destruct (IH s H) as [b ->]. now exists b.
Qed.

Lemma occurs_at_0 sep s : occurs_at sep s 0 <-> startswith sep s = true.
Proof.
  split.
  - intros (a & b & -> & L). destruct a; [|discriminate].
    simpl. apply startswith_app.
  - intros H. destruct (startswith_inv _ _ H) as [b ->].
    now exists [], b.
Qed.

Lemma occurs_at_S sep c s i :
  occurs_at sep (c :: s) (S i) <-> occurs_at sep s i.
Proof.
  split.
  - intros (a & b & E & L). destruct a as [|d a]; [discriminate|].
    injection E as -> ->. injection L as L. now exists a, b.
  - intros (a & b & -> & L). exists (c :: a), b. simpl; auto.
Qed.

Lemma occurs_at_skipn sep s i :
  occurs_at sep s i <->
  (i <= length s)%nat /\ startswith sep (skipn i s) = true.
Proof.
  split.
  - intros (a & b & -> & <-). split.
    + rewrite length_app. lia.
    + rewrite skipn_length_app. apply startswith_app.
  - intros [L H]. destruct (startswith_inv _ _ H) as [b E].
    exists (firstn i s), b. split.
    + rewrite <- E. symmetry. apply firstn_skipn.
    + now apply firstn_length_le.
Qed.

Lemma occurs_at_bound sep s i :
  occurs_at sep s i -> (i + length sep <= length s)%nat.
Proof.
  intros (a & b & -> & <-). rewrite !length_app. lia.
Qed.

Lemma find_some sep s i : find sep s = Some i -> first_occ sep s i.
Proof.
  revert i; induction s as [|c s IH]; intros i; simpl.
  - destruct (startswith sep []) eqn:E; [|discriminate].
    intros [= <-]. split; [now apply occurs_at_0 | intros j Hj; lia].
  - destruct (startswith sep (c :: s)) eqn:E.
    + intros [= <-]. split; [now apply occurs_at_0 | intros j Hj; lia].
    + destruct (find sep s) as [i'|]; [|discriminate].
      intros [= <-]. destruct (IH i' eq_refl) as [Ho Hm]. split.
      * now apply occurs_at_S.
      * intros [|j] Hj Hc.
        -- apply occurs_at_0 in Hc. congruence.
        -- apply occurs_at_S in Hc. apply (Hm j); [lia | assumption].
Qed.

Lemma find_none sep s : find sep s = None -> absent sep s.
Proof.
  induction s as [|c s IH]; simpl.
  - destruct (startswith sep []) eqn:E; [discriminate|].
    intros _ i Hc. pose proof (occurs_at_bound _ _ _ Hc) as Hb. simpl in Hb.
    assert (i = 0%nat) by lia. subst. apply occurs_at_0 in Hc. congruence.
  - destruct (startswith sep (c :: s)) eqn:E; [discriminate|].
    destruct (find sep s) as [i'|]; [discriminate|].
    intros _ [|i] Hc.
    + apply occurs_at_0 in Hc. congruence.
    + apply occurs_at_S in Hc. now apply (IH eq_refl i).
Qed.

Lemma first_occ_unique sep s i j :
  first_occ sep s i -> first_occ sep s j -> i = j.
Proof.
  intros [Hi Mi] [Hj Mj].
  destruct (Nat.lt_trichotomy i j) as [L|[E|L]]; auto.
  - now destruct (Mj i L).
  - now destruct (Mi j L).
Qed.

Lemma first_occ_find sep s i : first_occ sep s i -> find sep s = Some i.
Proof.
  intros H. destruct (find sep s) as [j|] eqn:E.
  - f_equal. apply (first_occ_unique _ _ _ _ (find_some _ _ _ E) H).
  - destruct H as [H _]. now destruct (find_none _ _ E i).
Qed.

Lemma absent_find sep s : absent sep s -> find sep s = None.
Proof.
  intros H. destruct (find sep s) as [j|] eqn:E; auto.
  destruct (find_some _ _ _ E) as [Ho _]. now destruct (H j).
Qed.

Lemma contains_false sep s : contains sep s = false <-> absent sep s.
Proof.
  unfold contains. destruct (find sep s) as [i|] eqn:E.
  - split; [discriminate|]. intros H.
    destruct (find_some _ _ _ E) as [Ho _]. now destruct (H i).
  - split; auto. intros _. now apply find_none.
Qed.

(** An occurrence inside a piece of [s] is an occurrence in [s]. *)
Lemma occurs_at_within sep a s b i :
  occurs_at sep s i -> occurs_at sep (a ++ s ++ b) (length a + i).
Proof.
  intros (x & y & -> & <-). exists (a ++ x), (y ++ b). split.
  - now rewrite <- !app_assoc.
  - now rewrite length_app.
Qed.

Lemma absent_within sep a s b : absent sep (a ++ s ++ b) -> absent sep s.
Proof.
  intros H i Hc. apply (H (length a + i)%nat). now apply occurs_at_within.
Qed.

Lemma occurs_at_of_firstn sep s i n :
  occurs_at sep (firstn n s) i -> occurs_at sep s i.
Proof.
  intros (a & b & E & <-). exists a, (b ++ skipn n s). split; auto.
  rewrite <- (firstn_skipn n s) at 1. rewrite E.
  now rewrite <- !app_assoc.
Qed.

End StringFacts.

(** ** The pieces of [split] *)

Section SplitFacts.

Implicit Types sep s t : str.

Lemma find_nil sep : sep <> [] -> find sep [] = None.
Proof. destruct sep; [congruence | reflexivity]. Qed.

Lemma split_ok sep s :
  sep <> [] -> split sep s = Ok (split_from (length s) sep s).
Proof. destruct sep; [congruence | reflexivity]. Qed.

Lemma split_from_head fuel sep s :
  sep <> [] -> (length s <= fuel)%nat ->
  nth_error (split_from fuel sep s) 0 = Some (cut sep s).
Proof.
  intros Hsep L. unfold cut. destruct fuel as [|fuel]; simpl.
  - destruct s; [|simpl in L; lia]. now rewrite find_nil.
  - destruct (find sep s); reflexivity.
Qed.

Lemma split_from_second fuel sep s i :
  sep <> [] -> (length s <= fuel)%nat -> find sep s = Some i ->
  nth_error (split_from fuel sep s) 1
  = Some (cut sep (skipn (i + length sep) s)).
Proof.
  intros Hsep L E. destruct fuel as [|fuel]; simpl.
  - destruct s; [|simpl in L; lia]. rewrite find_nil in E; congruence.
  - rewrite E. simpl. apply split_from_head; auto.
    rewrite length_skipn.
    assert (0 < length sep)%nat by (destruct sep; simpl; [congruence | lia]).
    lia.
Qed.

Lemma FENCE_nonempty : FENCE <> [].
Proof. discriminate. Qed.

Lemma FENCE_JSON_nonempty : FENCE_JSON <> [].
Proof. discriminate. Qed.

Lemma occurs_json_fence s i : occurs_at FENCE_JSON s i -> occurs_at FENCE s i.
Proof.
  intros (a & b & -> & L). exists a, (lit "json" ++ b). split; auto.
Qed.

Lemma absent_fence_json s : absent FENCE s -> absent FENCE_JSON s.
Proof. intros H i Hc. apply (H i). now apply occurs_json_fence. Qed.

(** The first piece of a split holds no separator. *)
Lemma cut_absent sep s : sep <> [] -> absent sep (cut sep s).
Proof.
  intros Hsep. unfold cut. destruct (find sep s) as [i|] eqn:E.
  - destruct (find_some _ _ _ E) as [_ Hm]. intros j Hc.
    pose proof (occurs_at_bound _ _ _ Hc) as Hb.
    rewrite length_firstn in Hb.
    assert (0 < length sep)%nat by (destruct sep; simpl; [congruence | lia]).
    apply (Hm j); [lia|]. now apply occurs_at_of_firstn in Hc.
  - now apply find_none.
Qed.

Lemma cut_of_absent sep s : absent sep s -> cut sep s = s.
Proof. intros H. unfold cut. now rewrite absent_find. Qed.

Lemma cut_first_occ sep s i : first_occ sep s i -> cut sep s = firstn i s.
Proof. intros H. unfold cut. now rewrite (first_occ_find _ _ _ H). Qed.

End SplitFacts.

(** ** The three branches of the extractor *)

Section ExtractorFacts.

Implicit Types t s : str.

Lemma extractor_branch sep t i :
  sep <> [] -> find sep t = Some i ->
  (pieces <- split sep t ;;
   after <- index pieces 1 ;;
   inner <- split FENCE after ;;
   body <- index inner 0 ;;
   Ok (strip body))
  = Ok (strip (cut FENCE (cut sep (skipn (i + length sep) t)))).
Proof.
  intros Hsep E. rewrite (split_ok _ _ Hsep). cbn [bind].
  unfold index at 1.
  rewrite (split_from_second _ _ _ i Hsep (le_n _) E). cbn [bind].
  rewrite (split_ok _ _ FENCE_nonempty). cbn [bind].
  unfold index.
  now rewrite (split_from_head _ _ _ FENCE_nonempty (le_n _)).
Qed.

Lemma extractor_json t i :
  find FENCE_JSON t = Some i ->
  response_extractor t
  = Ok (strip (cut FENCE (cut FENCE_JSON (skipn (i + 7) t)))).
Proof.
  intros E. unfold response_extractor, contains. rewrite E.
  apply (extractor_branch FENCE_JSON t i FENCE_JSON_nonempty E).
Qed.

Lemma extractor_fence t i :
  find FENCE_JSON t = None -> find FENCE t = Some i ->
  response_extractor t = Ok (strip (cut FENCE (skipn (i + 3) t))).
Proof.
  intros EJ E. unfold response_extractor, contains. rewrite EJ, E.
  rewrite (extractor_branch FENCE t i FENCE_nonempty E). do 2 f_equal.
  apply cut_of_absent. apply cut_absent. apply FENCE_nonempty.
Qed.

Lemma extractor_bare t : absent FENCE t -> response_extractor t = Ok t.
Proof.
  intros H. unfold response_extractor, contains.
  rewrite (absent_find _ _ (absent_fence_json _ H)).
  now rewrite (absent_find _ _ H).
Qed.

(** [lstrip] keeps a suffix, [rstrip] a prefix, [strip] a piece. *)
Lemma lstrip_suffix s : exists a, s = a ++ lstrip s.
Proof.
  induction s as [|c s [a IH]]; simpl.
  - now exists [].
  - destruct (isspace c).
    + exists (c :: a). simpl. now f_equal.
    + now exists [].
Qed.

Lemma rstrip_prefix s : exists b, s = rstrip s ++ b.
Proof.
  unfold rstrip. destruct (lstrip_suffix (rev s)) as [a E].
  exists (rev a). rewrite <- rev_app_distr, <- E. now rewrite rev_involutive.
Qed.

Lemma strip_piece s : exists a b, s = a ++ strip s ++ b.
Proof.
  unfold strip. destruct (lstrip_suffix s) as [a Ea].
  destruct (rstrip_prefix (lstrip s)) as [b Eb].
  exists a, b. now rewrite <- Eb.
Qed.

Lemma strip_absent sep s : absent sep s -> absent sep (strip s).
Proof.
  intros H. destruct (strip_piece s) as (a & b & E). rewrite E in H.
  now apply absent_within in H.
Qed.

(** Whatever the extractor returns holds no fence marker. *)
Lemma extractor_total t :
  exists r, response_extractor t = Ok r /\
            (contains FENCE t = true -> absent FENCE r).
Proof.
  destruct (find FENCE_JSON t) as [i|] eqn:EJ.
  - eexists. split; [apply (extractor_json _ _ EJ)|]. intros _.
    apply strip_absent, cut_absent, FENCE_nonempty.
  - destruct (find FENCE t) as [i|] eqn:E.
    + eexists. split; [apply (extractor_fence _ _ EJ E)|]. intros _.
      apply strip_absent, cut_absent, FENCE_nonempty.
    + exists t. split; [apply extractor_bare; now apply find_none|].
      unfold contains. rewrite E. discriminate.
Qed.

Lemma extractor_idempotent t :
  extract_twice t = response_extractor t.
Proof.
  unfold extract_twice. destruct (extractor_total t) as (r & E & H).
  rewrite E. simpl. destruct (contains FENCE t) eqn:C.
  - apply extractor_bare. now apply H.
  - apply contains_false in C. rewrite (extractor_bare _ C) in E.
    injection E as <-. now apply extractor_bare.
Qed.

End ExtractorFacts.

(** ** The first block of a reply *)

Section Blocks.

Implicit Types pre inner post rest : str.

Lemma skipn_app_plus (a x : str) n :
  skipn (length a + n) (a ++ x) = skipn n x.
Proof. induction a; simpl; auto. Qed.

Lemma firstn_app_plus (a x : str) n :
  firstn (length a + n) (a ++ x) = a ++ firstn n x.
Proof. induction a; simpl; congruence. Qed.

(** The text up to the closing fence holds no fence. *)
Lemma closed_inner_absent inner post :
  first_occ FENCE (inner ++ FENCE ++ post) (length inner) ->
  absent FENCE inner.
Proof.
  intros [_ Hm] i Hc. pose proof (occurs_at_bound _ _ _ Hc) as Hb.
  simpl in Hb. apply (Hm i); [lia|].
  apply (occurs_at_within _ [] _ (FENCE ++ post)) in Hc. exact Hc.
Qed.

Lemma closed_cut inner post :
  first_occ FENCE (inner ++ FENCE ++ post) (length inner) ->
  cut FENCE (inner ++ FENCE ++ post) = inner.
Proof.
  intros H. rewrite (cut_first_occ _ _ _ H). apply firstn_length_app.
Qed.

(** Cutting at the next JSON marker first does not move the closing
    fence, unless that marker starts one or two characters into it. *)
Lemma closed_json_cut inner post :
  first_occ FENCE (inner ++ FENCE ++ post) (length inner) ->
  startswith (lit "`json") post = false ->
  startswith (lit "``json") post = false ->
  cut FENCE (cut FENCE_JSON (inner ++ FENCE ++ post)) = inner.
Proof.
  intros H H1 H2. unfold cut at 2.
  destruct (find FENCE_JSON (inner ++ FENCE ++ post)) as [j|] eqn:EJ;
    [|now apply closed_cut].
  destruct (find_some _ _ _ EJ) as [Ho _]. pose proof H as [Hk Hm].
  assert (length inner <= j)%nat as Hle.
  { destruct (Nat.le_gt_cases (length inner) j) as [L|L]; auto.
    destruct (Hm j L). now apply occurs_json_fence. }
  apply occurs_at_skipn in Ho as [_ Ho].
  replace j with (length inner + (j - length inner))%nat in Ho by lia.
  rewrite skipn_app_plus in Ho.
  destruct (j - length inner)%nat as [|[|[|d]]] eqn:D.
  - replace j with (length inner) by lia. rewrite firstn_length_app.
    apply cut_of_absent. now apply (closed_inner_absent inner post).
  - simpl in Ho. simpl in H1. congruence.
  - simpl in Ho. simpl in H2. congruence.
  - replace j with (length inner + (3 + d))%nat by lia.
    rewrite firstn_app_plus. change (firstn (3 + d) (FENCE ++ post))
      with (FENCE ++ firstn d post).
    apply closed_cut. split.
    + now exists inner, (firstn d post).
    + intros i Hi Hc. apply (Hm i Hi).
      change (inner ++ FENCE ++ firstn d post)
        with (inner ++ firstn (3 + d) (FENCE ++ post)) in Hc.
      rewrite <- firstn_app_plus in Hc.
      now apply occurs_at_of_firstn in Hc.
Qed.

End Blocks.

(** ** The response extractor *)

(** C4, as the code has it.  When the reply holds the marker of a
    JSON block, the extractor returns, trimmed, the text between the
    first such marker and the first fence after it (the closing fence
    of the block), provided that fence is not directly followed by
    [`json] or [``json]; all the text after the marker when no fence
    follows.  When it holds no JSON marker but a fence, it returns,
    trimmed, the text between the first fence and the next one, all
    the text after the fence when there is no other.  With no fence at
    all it returns the text as it is. *)
Theorem extractor_policy :
  (forall pre inner post,
      first_occ FENCE_JSON (pre ++ FENCE_JSON ++ inner ++ FENCE ++ post)
        (length pre) ->
      first_occ FENCE (inner ++ FENCE ++ post) (length inner) ->
      startswith (lit "`json") post = false ->
      startswith (lit "``json") post = false ->
      response_extractor (pre ++ FENCE_JSON ++ inner ++ FENCE ++ post)
      = Ok (strip inner))
  /\ (forall pre inner,
         first_occ FENCE_JSON (pre ++ FENCE_JSON ++ inner) (length pre) ->
         absent FENCE inner ->
         response_extractor (pre ++ FENCE_JSON ++ inner) = Ok (strip inner))
  /\ (forall pre inner post,
         absent FENCE_JSON (pre ++ FENCE ++ inner ++ FENCE ++ post) ->
         first_occ FENCE (pre ++ FENCE ++ inner ++ FENCE ++ post)
           (length pre) ->
         first_occ FENCE (inner ++ FENCE ++ post) (length inner) ->
         response_extractor (pre ++ FENCE ++ inner ++ FENCE ++ post)
         = Ok (strip inner))
  /\ (forall pre inner,
         absent FENCE_JSON (pre ++ FENCE ++ inner) ->
         first_occ FENCE (pre ++ FENCE ++ inner) (length pre) ->
         absent FENCE inner ->
         response_extractor (pre ++ FENCE ++ inner) = Ok (strip inner))
  /\ (forall t, absent FENCE t -> response_extractor t = Ok t).
Proof.
  repeat split.
  - intros pre inner post HJ HF H1 H2.
    rewrite (extractor_json _ _ (first_occ_find _ _ _ HJ)).
    change 7%nat with (length FENCE_JSON).
    rewrite Nat.add_comm, <- skipn_skipn, skipn_length_app, skipn_length_app.
    now rewrite closed_json_cut.
  - intros pre inner HJ HF.
    rewrite (extractor_json _ _ (first_occ_find _ _ _ HJ)).
    change 7%nat with (length FENCE_JSON).
    rewrite Nat.add_comm, <- skipn_skipn, skipn_length_app, skipn_length_app.
    rewrite (cut_of_absent FENCE_JSON) by now apply absent_fence_json.
    now rewrite cut_of_absent.
  - intros pre inner post HJ HF HC.
    rewrite (extractor_fence _ _ (absent_find _ _ HJ) (first_occ_find _ _ _ HF)).
    change 3%nat with (length FENCE).
    rewrite Nat.add_comm, <- skipn_skipn, skipn_length_app, skipn_length_app.
    now rewrite closed_cut.
  - intros pre inner HJ HF HC.
    rewrite (extractor_fence _ _ (absent_find _ _ HJ) (first_occ_find _ _ _ HF)).
    change 3%nat with (length FENCE).
    rewrite Nat.add_comm, <- skipn_skipn, skipn_length_app, skipn_length_app.
    now rewrite cut_of_absent.
  - apply extractor_bare.
Qed.

Lemma extractor_policy_witness :
  response_extractor (lit "Sure: ```json
{}
``` done") = Ok (lit "{}")
  /\ response_extractor (lit "```json [1]") = Ok (lit "[1]")
  /\ response_extractor (lit "x ``` [2] ``` y") = Ok (lit "[2]")
  /\ response_extractor (lit "``` [3]") = Ok (lit "[3]")
  /\ response_extractor (lit "[4]") = Ok (lit "[4]").
Proof.
  destruct extractor_policy as (P1 & P2 & P3 & P4 & P5).
  split; [|split; [|split; [|split]]].
  - apply (P1 (lit "Sure: ") (lit "
{}
") (lit " done")); try (apply find_some; reflexivity); reflexivity.
  - apply (P2 [] (lit " [1]")).
    + apply find_some; reflexivity.
    + apply find_none; reflexivity.
  - apply (P3 (lit "x ") (lit " [2] ") (lit " y")).
    + apply find_none; reflexivity.
    + apply find_some; reflexivity.
    + apply find_some; reflexivity.
  - apply (P4 [] (lit " [3]")).
    + apply find_none; reflexivity.
    + apply find_some; reflexivity.
    + apply find_none; reflexivity.
  - apply (P5 (lit "[4]")). apply find_none; reflexivity.
Defined.

(** C4 as stated fails: this reply holds a JSON block whose content is
    [A] (its closing fence is the first fence after the marker), and
    the extractor returns [A`], because the reply is cut at the second
    JSON marker before it is cut at a fence. *)
Lemma extractor_policy_counterexample :
  let inner := lit "A" in
  let post := lit "`json B" in
  let t := FENCE_JSON ++ inner ++ FENCE ++ post in
  t = lit "```jsonA````json B"
  /\ first_occ FENCE_JSON t 0
  /\ first_occ FENCE (inner ++ FENCE ++ post) (length inner)
  /\ response_extractor t = Ok (lit "A`")
  /\ response_extractor t <> Ok (strip inner).
Proof.
  split; [reflexivity|].
  split; [apply find_some; reflexivity|].
  split; [apply find_some; reflexivity|].
  split; [reflexivity | discriminate].
Qed.

(** C8.  On a reply that holds no fence, extracting twice gives what
    extracting once gives: the reply itself. *)
Theorem extractor_idempotent_on_bare (t : str) :
  contains FENCE t = false ->
  extract_twice t = response_extractor t /\ response_extractor t = Ok t.
Proof.
  intros H. split.
  - apply extractor_idempotent.
  - apply extractor_bare. now apply contains_false.
Qed.

Lemma extractor_idempotent_on_bare_witness :
  contains FENCE (lit "{ }") = false
  /\ extract_twice (lit "{ }") = response_extractor (lit "{ }")
  /\ response_extractor (lit "{ }") = Ok (lit "{ }").
Proof.
  split; [reflexivity|].
  apply (extractor_idempotent_on_bare (lit "{ }")). reflexivity.
Defined.

(** C9.  The extractor returns a string on every input, and the two
    indexings are in bounds: under the guard [sep in t] the split has a
    piece 1, and every split has a piece 0. *)
Theorem extractor_never_raises (t : str) :
  (exists r, response_extractor t = Ok r)
  /\ (forall sep, sep = FENCE_JSON \/ sep = FENCE ->
        contains sep t = true ->
        exists pieces after,
          split sep t = Ok pieces /\ index pieces 1 = Ok after)
  /\ (forall after, exists inner body,
         split FENCE after = Ok inner /\ index inner 0 = Ok body).
Proof.
  split; [|split].
  - destruct (extractor_total t) as (r & E & _). now exists r.
  - intros sep Hsep C.
    assert (sep <> []) as Hne by (destruct Hsep; subst; discriminate).
    unfold contains in C. destruct (find sep t) as [i|] eqn:E; [|discriminate].
    exists (split_from (length t) sep t), (cut sep (skipn (i + length sep) t)).
    split; [now apply split_ok|]. unfold index.
    now rewrite (split_from_second _ _ _ i Hne (le_n _) E).
  - intros after.
    exists (split_from (length after) FENCE after), (cut FENCE after).
    split; [apply split_ok, FENCE_nonempty|]. unfold index.
    now rewrite (split_from_head _ _ _ FENCE_nonempty (le_n _)).
Qed.

Lemma extractor_never_raises_witness :
  exists pieces after,
    split FENCE (lit "```") = Ok pieces /\ index pieces 1 = Ok after.
Proof.
  apply (proj1 (proj2 (extractor_never_raises (lit "```"))) FENCE).
  - right; reflexivity.
  - reflexivity.
Defined.

(** ** Traces *)

Section TraceFacts.

Lemma pacing_app a b : pacing (a ++ b) = pacing a ++ pacing b.
Proof.
  induction a as [|[] a IH]; simpl; auto; now rewrite IH.
Qed.

Lemma requests_app a b : requests (a ++ b) = requests a ++ requests b.
Proof.
  induction a as [|[] a IH]; simpl; auto; now rewrite IH.
Qed.

Lemma requested_app a b : requested (a ++ b) = requested a ++ requested b.
Proof.
  induction a as [|[[]| | |] a IH]; simpl; auto; now rewrite IH.
Qed.

Lemma skipped_app a b : skipped (a ++ b) = skipped a ++ skipped b.
Proof.
  induction a as [|[[]| | |] a IH]; simpl; auto; now rewrite IH.
Qed.

End TraceFacts.

(** ** The batch generator *)

Section GeneratorFacts.

Variable World : Type.
Variable create : World -> request -> result str * World.
Variable loads : str -> option json.

Local Abbreviation state := (state World).
Local Abbreviation try_attempt := (try_attempt create loads).
Local Abbreviation retry_loop := (retry_loop create loads).
Local Abbreviation generate_batch := (generate_batch create loads).
Local Abbreviation attempt_value := (attempt_value loads).
Local Abbreviation reply_fails := (reply_fails loads).
Local Abbreviation world_after := (world_after create).
Local Abbreviation reply_at := (reply_at create).

(** One attempt: one call, the world moved by it, no pause. *)
Lemma try_attempt_spec rq key count attempt (st : state) :
  exists evs,
    fst (try_attempt rq key count attempt st)
    = attempt_value key (fst (create (world st) rq))
    /\ world (snd (try_attempt rq key count attempt st))
       = snd (create (world st) rq)
    /\ trace (snd (try_attempt rq key count attempt st)) = trace st ++ evs
    /\ pacing evs = [Call] /\ requests evs = [rq]
    /\ requested evs = [] /\ skipped evs = [].
Proof.
  unfold try_attempt, attempt_value, print, emit. simpl.
  destruct (create (world st) rq) as [[content|e] w]; simpl.
  - destruct (parse_reply loads key content) as [[v n]|e]; simpl.
    + destruct (n =? count); simpl; eexists;
        rewrite <- !app_assoc; simpl; repeat split.
    + eexists; rewrite <- !app_assoc; simpl; repeat split.
  - eexists; rewrite <- !app_assoc; simpl; repeat split.
Qed.

(** One turn of the loop: return on success; on failure pause and go
    on, or give up at the last attempt. *)
Lemma retry_loop_step a rest rq key count (st : state) :
  exists evs st1,
    world st1 = snd (create (world st) rq)
    /\ trace st1 = trace st ++ evs
    /\ requests evs = [rq] /\ requested evs = [] /\ skipped evs = []
    /\ match attempt_value key (fst (create (world st) rq)) with
       | Ok v =>
           retry_loop (a :: rest) rq key count st = (v, st1)
           /\ pacing evs = [Call]
       | Raise _ =>
           if a <? max_retries - 1
           then retry_loop (a :: rest) rq key count st
                = retry_loop rest rq key count st1
                /\ pacing evs = [Call; Pause 3]
           else retry_loop (a :: rest) rq key count st = (JArr [], st1)
                /\ pacing evs = [Call]
       end.
Proof.
  destruct (try_attempt_spec rq key count a st)
    as (evs & Hv & Hw & Ht & Hp & Hr & Hq & Hs).
  simpl. destruct (try_attempt rq key count a st) as [r st'].
  simpl in *. rewrite <- Hv. destruct r as [v|e].
  - exists evs, st'. repeat split; auto.
  - destruct (a <? 2).
    + exists (evs ++ [Print (except_msg a e); Sleep 3]), (sleep 3 (print (except_msg a e) st')).
      unfold sleep, print, emit; simpl.
      rewrite Ht, pacing_app, requests_app, requested_app, skipped_app,
        Hp, Hr, Hq, Hs, <- !app_assoc.
      destruct e; simpl; repeat split; auto.
    + exists (evs ++ [Print (except_msg a e)]), (print (except_msg a e) st').
      unfold print, emit; simpl.
      rewrite Ht, pacing_app, requests_app, requested_app, skipped_app,
        Hp, Hr, Hq, Hs, <- !app_assoc.
      destruct e; simpl; repeat split; auto.
Qed.

(** A run of failed attempts, none of them the last. *)
Lemma retry_loop_failures l1 : forall l2 rq key count (st : state),
  Forall (fun a => a < max_retries - 1) l1 ->
  (forall j, (j < length l1)%nat ->
             reply_fails key (reply_at rq j (world st)) = true) ->
  exists evs st1,
    retry_loop (l1 ++ l2) rq key count st = retry_loop l2 rq key count st1
    /\ world st1 = world_after rq (length l1) (world st)
    /\ trace st1 = trace st ++ evs
    /\ pacing evs = failures (length l1)
    /\ requests evs = repeat rq (length l1)
    /\ requested evs = [] /\ skipped evs = [].
Proof.
  induction l1 as [|a l1 IH]; intros l2 rq key count st Ha Hf.
  - exists [], st. simpl. rewrite app_nil_r. repeat split; auto.
  - inversion Ha as [|? ? Ha1 Ha2]; subst.
    destruct (retry_loop_step a (l1 ++ l2) rq key count st)
      as (evs & st1 & Hw & Ht & Hr & Hq & Hs & Hm).
    pose proof (Hf 0%nat ltac:(simpl; lia)) as H0.
    unfold reply_at, reply_fails
      in H0. simpl in H0.
    destruct (attempt_value key (fst (create (world st) rq))) as [v|e];
      [discriminate|].
    apply Z.ltb_lt in Ha1. rewrite Ha1 in Hm. destruct Hm as [Hl Hp].
    destruct (IH l2 rq key count st1 Ha2)
      as (evs' & st2 & Hl' & Hw' & Ht' & Hp' & Hr' & Hq' & Hs').
    { intros j Hj. rewrite Hw. apply (Hf (S j)). simpl; lia. }
    exists (evs ++ evs'), st2. simpl app. rewrite Hl, Hl', Hw', Hw, Ht', Ht.
    rewrite pacing_app, requests_app, requested_app, skipped_app,
      Hp, Hp', Hr, Hr', Hq, Hq', Hs, Hs', <- app_assoc.
    repeat split; auto.
Qed.

Lemma world_after_S rq k w :
  world_after rq (S k) w = snd (create (world_after rq k w) rq).
Proof. revert w; induction k as [|k IH]; intros w; simpl in *; auto. Qed.

(** Whatever happens, a batch generator only calls with its own
    prompt and writes no orchestrator line. *)
Lemma retry_loop_quiet attempts : forall rq key count (st : state),
  exists evs,
    trace (snd (retry_loop attempts rq key count st)) = trace st ++ evs
    /\ requested evs = [] /\ skipped evs = []
    /\ Forall (eq rq) (requests evs).
Proof.
  induction attempts as [|a rest IH]; intros rq key count st.
  - exists []. simpl. rewrite app_nil_r. repeat split; auto.
  - destruct (retry_loop_step a rest rq key count st)
      as (evs & st1 & Hw & Ht & Hr & Hq & Hs & Hm).
    destruct (attempt_value key (fst (create (world st) rq))) as [v|e].
    + destruct Hm as [-> _]. exists evs. simpl. rewrite Hr.
      repeat split; auto.
    + destruct (a <? max_retries - 1); destruct Hm as [-> _].
      * destruct (IH rq key count st1) as (evs' & Ht' & Hq' & Hs' & Hr').
        exists (evs ++ evs').
        rewrite Ht', Ht, requested_app, skipped_app, requests_app,
          Hq, Hq', Hs, Hs', Hr, <- app_assoc.
        repeat split; auto. simpl. now constructor.
      * exists evs. simpl. rewrite Hr. repeat split; auto.
Qed.

(** All three attempts fail: two pauses, three calls, nothing. *)
Lemma generate_batch_exhausted rq key count (st : state) :
  (forall j, (j < 3)%nat ->
             reply_fails key (reply_at rq j (world st)) = true) ->
  exists evs st1,
    generate_batch rq key count st = (JArr [], st1)
    /\ trace st1 = trace st ++ evs
    /\ pacing evs = [Call; Pause 3; Call; Pause 3; Call]
    /\ requests evs = [rq; rq; rq]
    /\ requested evs = [] /\ skipped evs = [].
Proof.
  intros Hf.
  destruct (retry_loop_failures [0; 1] [2] rq key count st)
    as (evs & st1 & Hl & Hw & Ht & Hp & Hr & Hq & Hs).
  { repeat constructor. }
  { intros j Hj. apply Hf. simpl in Hj. lia. }
  destruct (retry_loop_step 2 [] rq key count st1)
    as (evs' & st2 & Hw' & Ht' & Hr' & Hq' & Hs' & Hm).
  pose proof (Hf 2%nat ltac:(lia)) as H2.
  unfold reply_at, reply_fails
    in H2. simpl in Hw, H2. rewrite <- Hw in H2.
  destruct (attempt_value key (fst (create (world st1) rq))) as [v|e];
    [discriminate|].
  change (2 <? max_retries - 1) with false in Hm. destruct Hm as [Hl' Hp'].
  exists (evs ++ evs'), st2. unfold generate_batch.
  change (range max_retries) with ([0; 1] ++ [2]).
  rewrite Hl, Hl', Ht', Ht, pacing_app, requests_app, requested_app,
    skipped_app, Hp, Hp', Hr, Hr', Hq, Hq', Hs, Hs', <- app_assoc.
  repeat split; auto.
Qed.

(** [k] failed attempts, then one that yields [v]: [v] is returned
    after [k + 1] calls. *)
Lemma generate_batch_returns rq key count (st : state) k v :
  (k < 3)%nat ->
  (forall j, (j < k)%nat ->
             reply_fails key (reply_at rq j (world st)) = true) ->
  attempt_value key (reply_at rq k (world st)) = Ok v ->
  exists evs st1,
    generate_batch rq key count st = (v, st1)
    /\ world st1 = world_after rq (S k) (world st)
    /\ trace st1 = trace st ++ evs
    /\ pacing evs = failures k ++ [Call]
    /\ requests evs = repeat rq (S k)
    /\ requested evs = [] /\ skipped evs = [].
Proof.
  intros Hk Hf Hv.
  assert (exists l1 a l2, range max_retries = l1 ++ a :: l2
                          /\ length l1 = k
                          /\ Forall (fun a => a < max_retries - 1) l1)
    as (l1 & a & l2 & Hrange & Hlen & Hlt).
  { destruct k as [|[|[|k]]]; [| | |lia].
    - exists [], 0, [1; 2]. repeat constructor.
    - exists [0], 1, [2]. repeat constructor.
    - exists [0; 1], 2, []. repeat constructor. }
  destruct (retry_loop_failures l1 (a :: l2) rq key count st Hlt)
    as (evs & st1 & Hl & Hw & Ht & Hp & Hr & Hq & Hs).
  { now rewrite Hlen. }
  destruct (retry_loop_step a l2 rq key count st1)
    as (evs' & st2 & Hw' & Ht' & Hr' & Hq' & Hs' & Hm).
  unfold reply_at in Hv.
  rewrite Hlen in *. rewrite <- Hw in Hv. rewrite Hv in Hm.
  destruct Hm as [Hl' Hp'].
  exists (evs ++ evs'), st2. unfold generate_batch.
  rewrite Hrange, Hl, Hl', Ht', Ht, pacing_app, requests_app, requested_app,
    skipped_app, Hp, Hp', Hr, Hr', Hq, Hq', Hs, Hs', <- app_assoc.
  rewrite world_after_S, <- Hw, Hw'.
  repeat split; auto.
  clear. induction k as [|k IH]; simpl in *; auto. now rewrite IH.
Qed.

End GeneratorFacts.

(** ** The retry loop on any backend *)

Lemma calls_app a b : calls (a ++ b) = calls a + calls b.
Proof. induction a as [|[] a IH]; cbn [calls app]; lia. Qed.

Lemma slept_app a b : slept (a ++ b) = slept a + slept b.
Proof. induction a as [|[] a IH]; cbn [slept app]; lia. Qed.

Lemma dumps_app a b : dumps (a ++ b) = dumps a ++ dumps b.
Proof. induction a as [|[] a IH]; simpl; auto; now rewrite IH. Qed.

Lemma calls_failures k : calls (failures k ++ [Call]) = Z.of_nat k + 1.
Proof. induction k as [|k IH]; [reflexivity|]. cbn [failures app calls]. lia. Qed.

Lemma slept_failures k : slept (failures k ++ [Call]) = 3 * Z.of_nat k.
Proof. induction k as [|k IH]; [reflexivity|]. cbn [failures app slept]. lia. Qed.

Lemma reply_fails_false (loads : str -> option json) key reply :
  reply_fails loads key reply = false ->
  exists v, attempt_value loads key reply = Ok v.
Proof.
  unfold reply_fails. destruct (attempt_value loads key reply) as [v|e];
    [now exists v | discriminate].
Qed.

(** The shape of every run of the retry loop. *)
Lemma generate_batch_shape (World : Type)
    (create : World -> request -> result str * World)
    (loads : str -> option json) rq key count (st : state World) :
  exists k evs,
    (k < 3)%nat
    /\ trace (snd (generate_batch create loads rq key count st))
       = trace st ++ evs
    /\ pacing evs = failures k ++ [Call]
    /\ requests evs = repeat rq (S k)
    /\ calls (pacing evs) = Z.of_nat k + 1
    /\ slept (pacing evs) = 3 * Z.of_nat k.
Proof.
  assert (forall k, (k < 3)%nat ->
            (forall j, (j < k)%nat ->
               reply_fails loads key (reply_at create rq j (world st)) = true) ->
            reply_fails loads key (reply_at create rq k (world st)) = false ->
            exists evs,
              trace (snd (generate_batch create loads rq key count st))
              = trace st ++ evs
              /\ pacing evs = failures k ++ [Call]
              /\ requests evs = repeat rq (S k)) as Hret.
  { intros k Hk Hf Hok. destruct (reply_fails_false _ _ _ Hok) as (v & Hv).
    destruct (generate_batch_returns World create loads rq key count st k v
                Hk Hf Hv) as (evs & st1 & H & _ & Ht & Hp & Hr & _).
    exists evs. rewrite H. auto. }
  assert (forall k evs, (k < 3)%nat ->
            trace (snd (generate_batch create loads rq key count st))
            = trace st ++ evs ->
            pacing evs = failures k ++ [Call] ->
            requests evs = repeat rq (S k) ->
            exists k evs,
              (k < 3)%nat
              /\ trace (snd (generate_batch create loads rq key count st))
                 = trace st ++ evs
              /\ pacing evs = failures k ++ [Call]
              /\ requests evs = repeat rq (S k)
              /\ calls (pacing evs) = Z.of_nat k + 1
              /\ slept (pacing evs) = 3 * Z.of_nat k) as Hpack.
  { intros k evs Hk Ht Hp Hr. exists k, evs.
    rewrite Hp, calls_failures, slept_failures. auto 6. }
  destruct (reply_fails loads key (reply_at create rq 0 (world st))) eqn:F0.
  - destruct (reply_fails loads key (reply_at create rq 1 (world st))) eqn:F1.
    + destruct (reply_fails loads key (reply_at create rq 2 (world st))) eqn:F2.
      * destruct (generate_batch_exhausted World create loads rq key count st)
          as (evs & st1 & H & Ht & Hp & Hr & _).
        { intros j Hj. destruct j as [|[|[|j]]]; auto; lia. }
        apply (Hpack 2%nat evs); auto. now rewrite H.
      * destruct (Hret 2%nat) as (evs & Ht & Hp & Hr); auto.
        { intros j Hj. destruct j as [|[|j]]; auto; lia. }
        apply (Hpack 2%nat evs); auto.
    + destruct (Hret 1%nat) as (evs & Ht & Hp & Hr); auto.
      { intros j Hj. destruct j as [|j]; auto; lia. }
      apply (Hpack 1%nat evs); auto.
  - destruct (Hret 0%nat) as (evs & Ht & Hp & Hr); auto.
    { intros j Hj. lia. }
    apply (Hpack 0%nat evs); auto.
Qed.


(** ** The batch orchestrator *)

Lemma len_app {A : Type} (a b : list A) : len (a ++ b) = len a + len b.
Proof. unfold len. rewrite length_app. lia. Qed.

Lemma comprehension_objects items :
  forallb is_object items = true ->
  exists names,
    comprehension item_name items = Ok names /\ length names = length items.
Proof.
  induction items as [|md items IH]; simpl.
  - intros _. now exists [].
  - intros H. apply andb_true_iff in H as [Ho Hi].
    destruct (IH Hi) as (names & Hn & Hl).
    destruct md; try discriminate. simpl. rewrite Hn. simpl.
    eexists. split; [reflexivity|]. simpl. now rewrite Hl.
Qed.

(** The number of batches is the ceiling of [total / limit]. *)
Lemma batch_count_ceiling limit total :
  1 <= limit -> 1 <= total ->
  let n := batch_count limit total in
  1 <= n /\ (n - 1) * limit < total <= n * limit.
Proof.
  intros Hl Ht n. subst n. unfold batch_count.
  pose proof (Z.mul_div_le (total + limit - 1) limit ltac:(lia)).
  pose proof (Z.mul_succ_div_gt (total + limit - 1) limit ltac:(lia)).
  nia.
Qed.

Section OrchestratorFacts.

Variable World : Type.
Variable Dist : Type.
Variable batch_limit : Z.
Variable batch : Z -> list json -> Dist -> state World -> json * state World.
Variable tally : list json -> Dist -> result Dist.

(** The batch generator writes no orchestrator line. *)
Hypothesis batch_quiet : forall count names methods st,
  exists evs,
    trace (snd (batch count names methods st)) = trace st ++ evs
    /\ requested evs = [] /\ skipped evs = [].

Local Abbreviation state := (state World).
Local Abbreviation accumulator := (accumulator Dist).
Local Abbreviation batch_body := (batch_body batch_limit batch tally).
Local Abbreviation batch_loop := (batch_loop batch_limit batch tally).
Local Abbreviation loop_step := (loop_step batch_limit batch tally).
Local Abbreviation before_batch := (before_batch batch_limit batch tally).
Local Abbreviation batch_count := (batch_count batch_limit).
Local Abbreviation batch_size_at := (batch_size_at (Dist := Dist) batch_limit).
Local Abbreviation call_batch := (call_batch (Dist := Dist) batch_limit batch).
Local Abbreviation request_size := (request_size batch_limit batch tally).
Local Abbreviation batch_result := (batch_result batch_limit batch tally).
Local Abbreviation empty_batch := (empty_batch batch_limit batch tally).
Local Abbreviation run_batches := (run_batches batch_limit batch tally).
Local Abbreviation orchestrate := (orchestrate batch_limit batch tally).

(** The body of the loop, by what the batch generator returned. *)
Lemma batch_body_unfold total batches (acc : accumulator) (st : state) n :
  batch_body total batches acc st n =
  let b := call_batch total batches (acc, st) n in
  if py_bool (fst b) then
    items <- py_iter (fst b) ;;
    names <- comprehension item_name items ;;
    methods <- tally items (existing_methods acc) ;;
    Ok ({| all_dishes := all_dishes acc ++ items;
           existing_names := existing_names acc ++ names;
           existing_methods := methods |},
        sleep 1 (print (MsgTotal (len (all_dishes acc ++ items)) total) (snd b)))
  else Ok (acc, sleep 1 (print (MsgBatchFailed (n + 1)) (snd b))).
Proof.
  unfold batch_body, call_batch,
    batch_size_at. simpl.
  destruct (batch _ _ _ _) as [b st1]. reflexivity.
Qed.

(** An empty batch: the accumulator is left as it was, the batch is
    recorded as skipped, the pause is taken. *)
Lemma batch_body_empty total batches (acc : accumulator) (st : state) n :
  py_bool (fst (call_batch total batches (acc, st) n)) = false ->
  batch_body total batches acc st n
  = Ok (acc, sleep 1 (print (MsgBatchFailed (n + 1))
                        (snd (call_batch total batches (acc, st) n)))).
Proof. intros H. rewrite batch_body_unfold. simpl. now rewrite H. Qed.


(** The trace of one turn of the loop. *)
Lemma batch_body_trace total batches (acc acc' : accumulator) (st st' : state) n :
  batch_body total batches acc st n = Ok (acc', st') ->
  exists evs,
    trace st' = trace st ++ evs
    /\ requested evs = [batch_size_at total acc]
    /\ skipped evs
       = if py_bool (fst (call_batch total batches (acc, st) n)) then []
         else [n + 1].
Proof.
  rewrite batch_body_unfold. unfold call_batch. simpl.
  destruct (batch_quiet (batch_size_at total acc) (existing_names acc)
              (existing_methods acc)
              (print (MsgBatch (n + 1) batches (batch_size_at total acc)) st))
    as (evs & Ht & Hq & Hs).
  destruct (batch _ _ _ _) as [b st1]. simpl in *.
  destruct (py_bool b).
  - destruct (py_iter b) as [items|]; simpl; [|discriminate].
    destruct (comprehension item_name items) as [names|]; simpl; [|discriminate].
    destruct (tally items (existing_methods acc)) as [m|]; simpl; [|discriminate].
    intros [= <- <-]. simpl. rewrite Ht. simpl.
    eexists. rewrite <- !app_assoc. split; [reflexivity|].
    simpl. rewrite !requested_app, !skipped_app, Hq, Hs. simpl. auto.
  - intros [= <- <-]. simpl. rewrite Ht. simpl.
    eexists. rewrite <- !app_assoc. split; [reflexivity|].
    simpl. rewrite !requested_app, !skipped_app, Hq, Hs. simpl. auto.
Qed.

Lemma range_S k : range (Z.of_nat (S k)) = range (Z.of_nat k) ++ [Z.of_nat k].
Proof.
  unfold range. rewrite !Nat2Z.id, seq_S, map_app. reflexivity.
Qed.

Lemma before_batch_S total m (st : state) k :
  before_batch total m st (S k)
  = loop_step total (batch_count total) (before_batch total m st k)
      (Z.of_nat k).
Proof.
  unfold before_batch, batch_loop.
  now rewrite range_S, fold_left_app.
Qed.

(** A state reached after [k + 1] batches was reached through one
    after [k]. *)
Lemma before_batch_inv total m (st : state) k p :
  before_batch total m st (S k) = Ok p ->
  exists q,
    before_batch total m st k = Ok q
    /\ batch_body total (batch_count total) (fst q) (snd q) (Z.of_nat k)
       = Ok p.
Proof.
  rewrite before_batch_S. unfold loop_step.
  destruct (before_batch total m st k) as [q|e]; simpl; [|discriminate].
  intros H. now exists q.
Qed.

Lemma before_batch_prefix total m (st : state) n p :
  before_batch total m st n = Ok p ->
  forall k, (k <= n)%nat -> exists q, before_batch total m st k = Ok q.
Proof.
  revert p. induction n as [|n IH]; intros p H k Hk.
  - assert (k = 0%nat) as -> by lia. now exists p.
  - destruct (Nat.eq_dec k (S n)) as [->|Hne]; [now exists p|].
    destruct (before_batch_inv _ _ _ _ _ H) as (q & Hq & _).
    apply (IH q Hq). lia.
Qed.

Lemma run_batches_before total m (st : state) :
  batch_limit <> 0 ->
  run_batches total m st
  = before_batch total m st (Z.to_nat (batch_count total)).
Proof.
  intros H. unfold run_batches, before_batch.
  apply Z.eqb_neq in H. rewrite H. unfold range. now rewrite Nat2Z.id.
Qed.

Lemma request_size_at total m (st : state) k q :
  before_batch total m st k = Ok q ->
  request_size total m st k = Ok (batch_size_at total (fst q)).
Proof.
  intros H. unfold request_size. now rewrite H.
Qed.

Lemma batch_result_at total m (st : state) k q :
  before_batch total m st k = Ok q ->
  batch_result total m st k
  = Ok (fst (call_batch total (batch_count total) q (Z.of_nat k))).
Proof.
  intros H. unfold batch_result. now rewrite H.
Qed.

(** What a run of [k] batches has written: one announced count per
    batch, one skip line per empty batch. *)
Lemma before_batch_trace total m (st : state) k : forall p,
  before_batch total m st k = Ok p ->
  exists evs,
    trace (snd p) = trace st ++ evs
    /\ map Ok (requested evs) = map (request_size total m st) (seq 0 k)
    /\ skipped evs
       = map (fun i => Z.of_nat i + 1)
           (filter (empty_batch total m st) (seq 0 k)).
Proof.
  induction k as [|k IH]; intros p H.
  - injection H as <-. exists []. simpl. now rewrite app_nil_r.
  - destruct (before_batch_inv _ _ _ _ _ H) as ([acc st1] & Hq & Hb).
    destruct (IH _ Hq) as (evs & Ht & Hr & Hs). destruct p as [acc' st'].
    cbn [fst snd] in *.
    destruct (batch_body_trace _ _ _ _ _ _ _ Hb) as (evs' & Ht' & Hr' & Hs').
    exists (evs ++ evs'). rewrite Ht', Ht, <- app_assoc. split; auto.
    rewrite seq_S, requested_app, skipped_app, !map_app, filter_app, map_app.
    rewrite Hr, Hr', Hs, Hs'. simpl.
    rewrite (request_size_at _ _ _ _ _ Hq). split; auto. f_equal.
    unfold empty_batch.
    rewrite (batch_result_at _ _ _ _ _ Hq).
    now destruct (py_bool _).
Qed.

(** A well-formed batch never makes the body raise, when the tally
    cannot. *)
Lemma batch_body_well_formed total batches (acc : accumulator) (st : state) n :
  (forall items m, exists m', tally items m = Ok m') ->
  well_formed (fst (call_batch total batches (acc, st) n)) = true ->
  exists p, batch_body total batches acc st n = Ok p.
Proof.
  intros Htally H. rewrite batch_body_unfold. cbv zeta.
  destruct (py_bool (fst (call_batch total batches (acc, st) n))) eqn:Hb;
    [|eexists; reflexivity].
  destruct (fst (call_batch total batches (acc, st) n))
    as [|b|z|f|s|items|fields];
    simpl in H; simpl in Hb; rewrite ?Hb in H; try discriminate.
  destruct (comprehension_objects items H) as (names & Hn & _).
  destruct (Htally items (existing_methods acc)) as (m' & Hm).
  simpl. rewrite Hn. simpl. rewrite Hm. simpl. eexists; reflexivity.
Qed.

(** A run whose batches are all well formed goes through them all. *)
Lemma run_completes total m (st : state) n :
  (forall items m, exists m', tally items m = Ok m') ->
  (forall k, (k < n)%nat ->
             forall b, batch_result total m st k = Ok b ->
                       well_formed b = true) ->
  exists p, before_batch total m st n = Ok p.
Proof.
  intros Htally. induction n as [|n IH]; intros H.
  - eexists; reflexivity.
  - destruct IH as ([acc st1] & Hq); [intros k Hk; apply H; lia|].
    rewrite before_batch_S, Hq. unfold loop_step.
    simpl. apply batch_body_well_formed; auto.
    apply (H n); [lia|]. now rewrite (batch_result_at _ _ _ _ _ Hq).
Qed.

(** When every batch brings exactly what was asked for, [k] batches
    have collected [k] times the limit, capped at the total. *)
Lemma exact_lengths total m (st : state) n :
  1 <= batch_limit -> 1 <= total ->
  (forall k, (k < n)%nat -> Z.of_nat k * batch_limit < total) ->
  (forall k, (k < n)%nat ->
     exists items,
       batch_result total m st k = Ok (JArr items)
       /\ request_size total m st k = Ok (len items)) ->
  forall k, (k <= n)%nat ->
  forall q, before_batch total m st k = Ok q ->
            len (all_dishes (fst q)) = Z.min (Z.of_nat k * batch_limit) total.
Proof.
  intros Hl Ht Hlt Hex. induction k as [|k IH]; intros Hk q Hq.
  - injection Hq as <-. unfold len. cbn [fst all_dishes fresh length].
    change (Z.of_nat 0) with 0. lia.
  - destruct (before_batch_inv _ _ _ _ _ Hq) as ([acc st1] & Hq' & Hb).
    pose proof (IH ltac:(lia) _ Hq') as Hlen.
    destruct (Hex k ltac:(lia)) as (items & Hres & Hsize).
    rewrite (batch_result_at _ _ _ _ _ Hq') in Hres.
    rewrite (request_size_at _ _ _ _ _ Hq') in Hsize.
    injection Hres as Hres. injection Hsize as Hsize.
    pose proof (Hlt k ltac:(lia)) as Hk'.
    cbn [fst snd] in *.
    unfold batch_size_at in Hsize.
    rewrite batch_body_unfold in Hb. cbv zeta in Hb. rewrite Hres in Hb.
    assert (items <> []) as Hne.
    { intros ->. unfold len in *. cbn [length] in Hsize. lia. }
    destruct items as [|md items]; [congruence|]. cbn [py_bool length] in Hb.
    cbn [Nat.eqb negb py_iter bind] in Hb.
    destruct (comprehension item_name (md :: items)) as [names|];
      [|discriminate].
    cbn [bind] in Hb.
    destruct (tally (md :: items) (existing_methods acc)) as [m'|];
      [|discriminate].
    cbn [bind] in Hb. injection Hb as <-. cbn [fst all_dishes].
    rewrite len_app. lia.
Qed.

(** The orchestrator returns exactly when its loop does. *)
Lemma orchestrate_inv total m (st : state) acc st' :
  batch_limit <> 0 ->
  orchestrate total m st = Ok (acc, st') ->
  exists st1,
    before_batch total m (print (MsgGenerating total) st)
      (Z.to_nat (batch_count total)) = Ok (acc, st1)
    /\ st' = print (MsgCompleted (len (all_dishes acc))) st1.
Proof.
  intros Hl. unfold orchestrate.
  rewrite (run_batches_before _ _ _ Hl).
  destruct (before_batch _ _ _ _) as [[acc1 st1]|e]; simpl; [|discriminate].
  intros [= <- <-]. now exists st1.
Qed.

Lemma orchestrate_of_before total m (st : state) p :
  batch_limit <> 0 ->
  before_batch total m (print (MsgGenerating total) st)
    (Z.to_nat (batch_count total)) = Ok p ->
  orchestrate total m st
  = Ok (fst p, print (MsgCompleted (len (all_dishes (fst p)))) (snd p)).
Proof.
  intros Hl H. unfold orchestrate.
  rewrite (run_batches_before _ _ _ Hl), H. reflexivity.
Qed.

(** What a whole run writes. *)
Lemma orchestrate_trace total m (st : state) acc st' :
  batch_limit <> 0 ->
  orchestrate total m st = Ok (acc, st') ->
  let st0 := print (MsgGenerating total) st in
  let n := Z.to_nat (batch_count total) in
  exists evs,
    trace st' = trace st ++ evs
    /\ map Ok (requested evs) = map (request_size total m st0) (seq 0 n)
    /\ skipped evs
       = map (fun i => Z.of_nat i + 1)
           (filter (empty_batch total m st0) (seq 0 n)).
Proof.
  intros Hl H st0 n. destruct (orchestrate_inv _ _ _ _ _ Hl H) as (st1 & Hb & ->).
  destruct (before_batch_trace _ _ _ _ _ Hb) as (evs & Ht & Hr & Hs).
  exists ([Print (MsgGenerating total)] ++ evs
          ++ [Print (MsgCompleted (len (all_dishes acc)))]).
  cbn [snd] in Ht. unfold print, emit. cbn [trace]. rewrite Ht.
  unfold print, emit. cbn [trace]. rewrite <- !app_assoc. split; auto.
  rewrite !requested_app, !skipped_app. simpl. rewrite !app_nil_r. auto.
Qed.

End OrchestratorFacts.

Lemma sum_app a b : sum (a ++ b) = sum a + sum b.
Proof. induction a as [|x a IH]; simpl; auto. rewrite IH. lia. Qed.

Lemma map_Ok_inj {A : Type} (l1 l2 : list A) :
  map (@Ok A) l1 = map (@Ok A) l2 -> l1 = l2.
Proof.
  revert l2; induction l1 as [|x l1 IH]; intros [|y l2] H; simpl in *;
    try discriminate; auto.
  injection H as -> H. f_equal. now apply IH.
Qed.

(** Before the last batch the total is not yet reached. *)
Lemma batch_count_before limit total k :
  1 <= limit -> 1 <= total ->
  (k < Z.to_nat (batch_count limit total))%nat ->
  Z.of_nat k * limit < total.
Proof.
  intros Hl Ht Hk.
  pose proof (batch_count_ceiling limit total Hl Ht) as (H1 & H2 & _).
  nia.
Qed.

Lemma sum_exact limit total n :
  1 <= limit -> 0 <= total ->
  (forall k, (k < n)%nat -> Z.of_nat k * limit < total) ->
  sum (map (fun k => Z.min limit (total - Z.of_nat k * limit)) (seq 0 n))
  = Z.min (Z.of_nat n * limit) total.
Proof.
  intros Hl Ht. induction n as [|n IH]; intros H.
  - simpl. lia.
  - rewrite seq_S, map_app, sum_app, IH by (intros; apply H; lia).
    rewrite Nat2Z.inj_succ, Z.mul_succ_l.
    cbn [map sum fold_right Nat.add]. pose proof (H n ltac:(lia)). lia.
Qed.

(** ** Whole runs *)

Section RunFacts.

Variable World : Type.
Variable Dist : Type.
Variable limit : Z.
Variable batch : Z -> list json -> Dist -> state World -> json * state World.
Variable tally : list json -> Dist -> result Dist.

Hypothesis batch_quiet : forall count names methods st,
  exists evs,
    trace (snd (batch count names methods st)) = trace st ++ evs
    /\ requested evs = [] /\ skipped evs = [].

Local Abbreviation before_batch := (before_batch limit batch tally).
Local Abbreviation request_size := (request_size limit batch tally).
Local Abbreviation batch_result := (batch_result limit batch tally).
Local Abbreviation empty_batch := (empty_batch limit batch tally).
Local Abbreviation orchestrate := (orchestrate limit batch tally).

(** The counts a run that returns has asked for. *)
Lemma run_requests total m (st : state World) acc st' :
  1 <= limit -> 1 <= total ->
  orchestrate total m st = Ok (acc, st') ->
  let st0 := print (MsgGenerating total) st in
  let n := Z.to_nat (batch_count limit total) in
  (Z.of_nat n - 1) * limit < total <= Z.of_nat n * limit
  /\ exists evs,
      trace st' = trace st ++ evs
      /\ length (requested evs) = n
      /\ (forall k, (k < n)%nat ->
            exists q,
              before_batch total m st0 k = Ok q
              /\ nth_error (requested evs) k
                 = Some (Z.min limit (total - len (all_dishes (fst q)))))
      /\ ((forall k, (k < n)%nat ->
              exists items,
                batch_result total m st0 k = Ok (JArr items)
                /\ request_size total m st0 k = Ok (len items)) ->
          requested evs
          = map (fun k => Z.min limit (total - Z.of_nat k * limit)) (seq 0 n)
          /\ sum (requested evs) = total
          /\ len (all_dishes acc) = total).
Proof.
  intros Hl Ht H st0 n.
  pose proof (batch_count_ceiling limit total Hl Ht) as (Hn1 & Hn2 & Hn3).
  assert (Z.of_nat n = batch_count limit total) as Hn
      by (unfold n; rewrite Z2Nat.id; lia).
  split; [rewrite Hn; lia|].
  assert (limit <> 0) as Hl0 by lia.
  destruct (orchestrate_trace _ _ _ _ _ batch_quiet _ _ _ _ _ Hl0 H)
    as (evs & Htr & Hr & _).
  destruct (orchestrate_inv _ _ _ _ _ _ _ _ _ _ Hl0 H) as (st1 & Hb & _).
  fold st0 in Hr, Hb. fold n in Hr, Hb.
  exists evs. split; [assumption|]. split; [|split].
  - apply (f_equal (@length _)) in Hr.
    now rewrite !length_map, length_seq in Hr.
  - intros k Hk.
    destruct (before_batch_prefix _ _ _ _ _ _ _ _ _ _ Hb k ltac:(lia))
      as (q & Hq).
    exists q. split; [assumption|].
    apply (f_equal (fun l => nth_error l k)) in Hr.
    rewrite !nth_error_map, nth_error_seq in Hr.
    apply Nat.ltb_lt in Hk. rewrite Hk in Hr. cbn [option_map Nat.add] in Hr.
    rewrite (request_size_at _ _ _ _ _ _ _ _ _ _ Hq) in Hr.
    destruct (nth_error (requested evs) k); [|discriminate].
    now injection Hr as ->.
  - intros Hex.
    assert (forall k, (k < n)%nat -> Z.of_nat k * limit < total) as Hlt
        by (intros; now apply batch_count_before).
    pose proof (exact_lengths _ _ _ _ _ total m st0 n Hl Ht Hlt Hex) as Hlen.
    assert (requested evs
            = map (fun k => Z.min limit (total - Z.of_nat k * limit)) (seq 0 n))
      as Hreq.
    { apply map_Ok_inj. rewrite Hr, map_map. apply map_ext_in.
      intros k Hk. apply in_seq in Hk.
      destruct (before_batch_prefix _ _ _ _ _ _ _ _ _ _ Hb k ltac:(lia))
        as (q & Hq).
      rewrite (request_size_at _ _ _ _ _ _ _ _ _ _ Hq).
      unfold batch_size_at. rewrite (Hlen k ltac:(lia) q Hq).
      pose proof (Hlt k ltac:(lia)). f_equal. lia. }
    split; [assumption|]. split.
    + rewrite Hreq, sum_exact by (auto; lia). lia.
    + pose proof (Hlen n (le_n _) _ Hb) as Hfin. cbn [fst] in Hfin. lia.
Qed.

(** While every batch comes back empty the accumulator stays as it
    started. *)
Lemma all_empty_fresh total m (st : state World) n :
  (forall k, (k < n)%nat -> empty_batch total m st k = true) ->
  forall q, before_batch total m st n = Ok q -> fst q = fresh m.
Proof.
  induction n as [|n IH]; intros He q Hq.
  - now injection Hq as <-.
  - destruct (before_batch_inv _ _ _ _ _ _ _ _ _ _ Hq) as ([acc st1] & Hq' & Hb).
    pose proof (IH ltac:(intros; apply He; lia) _ Hq') as Hf.
    pose proof (He n ltac:(lia)) as Hn.
    unfold empty_batch in Hn.
    rewrite (batch_result_at _ _ _ _ _ _ _ _ _ _ Hq') in Hn.
    apply negb_true_iff in Hn. cbn [fst snd] in *.
    rewrite (batch_body_empty _ _ _ _ _ _ _ _ _ _ Hn) in Hb.
    now injection Hb as <-.
Qed.

(** A run whose batches are each empty or a list of item objects goes
    through every batch and returns. *)
Lemma run_survives total m (st : state World) :
  limit <> 0 ->
  (forall items m, exists m', tally items m = Ok m') ->
  let st0 := print (MsgGenerating total) st in
  let n := Z.to_nat (batch_count limit total) in
  (forall k, (k < n)%nat ->
     forall b, batch_result total m st0 k = Ok b -> well_formed b = true) ->
  exists acc st' evs,
    orchestrate total m st = Ok (acc, st')
    /\ trace st' = trace st ++ evs
    /\ length (requested evs) = n
    /\ skipped evs
       = map (fun k => Z.of_nat k + 1) (filter (empty_batch total m st0) (seq 0 n))
    /\ ((forall k, (k < n)%nat -> empty_batch total m st0 k = true) ->
        all_dishes acc = [] /\ existing_names acc = []).
Proof.
  intros Hl Htally st0 n Hwf.
  destruct (run_completes _ _ _ _ _ total m st0 n Htally Hwf) as ([acc st1] & Hb).
  pose proof (orchestrate_of_before _ _ _ _ _ total m st _ Hl Hb) as Ho.
  cbn [fst snd] in Ho.
  destruct (orchestrate_trace _ _ _ _ _ batch_quiet _ _ _ _ _ Hl Ho)
    as (evs & Htr & Hr & Hs).
  exists acc, (print (MsgCompleted (len (all_dishes acc))) st1), evs.
  split; [assumption|]. split; [assumption|]. split; [|split].
  - apply (f_equal (@length _)) in Hr.
    now rewrite !length_map, length_seq in Hr.
  - exact Hs.
  - intros He. pose proof (all_empty_fresh _ _ _ _ He _ Hb) as Hf.
    cbn [fst] in Hf. now subst acc.
Qed.

End RunFacts.

(** ** Claims about the batch generator *)

(** C2.  When every attempt fails (the client raises, or the reply
    does not parse), the batch generator calls three times, pauses
    three seconds between two calls and not after the last, and
    returns an empty list: it raises nothing. *)
Theorem generate_batch_gives_up (World : Type)
    (create : World -> request -> result str * World)
    (loads : str -> option json) :
  (forall w rq key, reply_fails loads key (fst (create w rq)) = true) ->
  forall key info count names (st : state World),
    (exists evs st1,
        generate_main_dishes_batch create loads key info count names st
        = (JArr [], st1)
        /\ trace st1 = trace st ++ evs
        /\ pacing evs = [Call; Pause 3; Call; Pause 3; Call])
    /\ (exists evs st1,
           generate_recipes_batch create loads key info count names st
           = (JArr [], st1)
           /\ trace st1 = trace st ++ evs
           /\ pacing evs = [Call; Pause 3; Call; Pause 3; Call]).
Proof.
  intros Hf key info count names st. split.
  - destruct (generate_batch_exhausted World create loads
                (main_dishes_request key info count names)
                (lit "mainDishes") count st)
      as (evs & st1 & H & Ht & Hp & _); [intros; apply Hf|].
    now exists evs, st1.
  - destruct (generate_batch_exhausted World create loads
                (recipes_request key info count names)
                (lit "recipes") count st)
      as (evs & st1 & H & Ht & Hp & _); [intros; apply Hf|].
    now exists evs, st1.
Qed.

Lemma generate_batch_gives_up_witness :
  exists evs st1,
    generate_main_dishes_batch down_create no_loads (lit "omakase")
      some_category 5 [] (start tt)
    = (JArr [], st1)
    /\ trace st1 = trace (start tt) ++ evs
    /\ pacing evs = [Call; Pause 3; Call; Pause 3; Call].
Proof.
  apply (proj1 (generate_batch_gives_up unit down_create no_loads
                  (fun w rq key => eq_refl)
                  (lit "omakase") some_category 5 [] (start tt))).
Defined.

(** C5, as the code has it.  When the reply of an attempt parses,
    after any number of failed attempts, into an object whose items
    are a list, the batch generator returns that list as it is,
    whatever its length and the count asked for, and calls no more. *)
Theorem generate_batch_returns_items (World : Type)
    (create : World -> request -> result str * World)
    (loads : str -> option json)
    key info count names (st : state World) k content text fields items :
  (k < 3)%nat ->
  let rq := main_dishes_request key info count names in
  (forall j, (j < k)%nat ->
     reply_fails loads (lit "mainDishes") (reply_at create rq j (world st))
     = true) ->
  reply_at create rq k (world st) = Ok content ->
  response_extractor (strip content) = Ok text ->
  loads text = Some (JObj fields) ->
  dict_get fields (lit "mainDishes") = Some (JArr items) ->
  exists evs st1,
    generate_main_dishes_batch create loads key info count names st
    = (JArr items, st1)
    /\ world st1 = world_after create rq (S k) (world st)
    /\ trace st1 = trace st ++ evs
    /\ pacing evs = failures k ++ [Call]
    /\ requests evs = repeat rq (S k).
Proof.
  intros Hk rq Hf Hc Ht Hl Hg.
  destruct (generate_batch_returns World create loads rq (lit "mainDishes") count
              st k (JArr items) Hk Hf)
    as (evs & st1 & H & Hw & Htr & Hp & Hr & _).
  - rewrite Hc. unfold attempt_value, parse_reply, json_loads. simpl.
    rewrite Ht. simpl. rewrite Hl. simpl. now rewrite Hg.
  - now exists evs, st1.
Qed.

Lemma generate_batch_returns_items_witness :
  exists evs st1,
    generate_main_dishes_batch flaky_create toy_loads (lit "omakase")
      some_category 5 [] (start 0%nat)
    = (JArr [toy_item 120; toy_item 121]%N, st1)
    /\ world st1 = 2%nat
    /\ trace st1 = trace (start 0%nat) ++ evs
    /\ pacing evs = [Call; Pause 3; Call]
    /\ requests evs
       = repeat (main_dishes_request (lit "omakase") some_category 5 []) 2.
Proof.
  apply (generate_batch_returns_items nat flaky_create toy_loads (lit "omakase")
           some_category 5 [] (start 0%nat) 1
           (lit "```json
xy
```") (lit "xy")
           [(lit "mainDishes", JArr [toy_item 120; toy_item 121]%N);
            (lit "recipes", JArr [toy_item 120; toy_item 121]%N)]
           [toy_item 120; toy_item 121]%N).
  - lia.
  - intros j Hj. assert (j = 0%nat) as -> by lia. reflexivity.
  - reflexivity.
  - reflexivity.
  - reflexivity.
  - reflexivity.
Defined.

(** ** Claims about the orchestrator *)

Section MainDishesFacts.

Variable World : Type.
Variable create : World -> request -> result str * World.
Variable loads : str -> option json.
Variable limit : Z.
Variable key : str.
Variable info : category_info.

Local Abbreviation batch := (main_dishes_batch create loads key info).

Lemma main_dishes_batch_quiet : forall count names (u : unit) (st : state World),
  exists evs,
    trace (snd (batch count names u st)) = trace st ++ evs
    /\ requested evs = [] /\ skipped evs = [].
Proof.
  intros count names u st.
  destruct (retry_loop_quiet World create loads (range max_retries)
              (main_dishes_request key info count names) (lit "mainDishes")
              count st) as (evs & Ht & Hq & Hs & _).
  now exists evs.
Qed.

Lemma no_tally_total : forall items (m : unit), exists m', no_tally items m = Ok m'.
Proof. intros items m. now exists m. Qed.

(** The loop body when the batch generator came back with nothing. *)
Lemma main_body_after_nothing total batches (acc : accumulator unit)
    (st st1 : state World) k evs :
  generate_main_dishes_batch create loads key info
    (batch_size_at limit total acc) (existing_names acc)
    (print (MsgBatch (k + 1) batches (batch_size_at limit total acc)) st)
  = (JArr [], st1) ->
  trace st1
  = trace (print (MsgBatch (k + 1) batches (batch_size_at limit total acc)) st)
    ++ evs ->
  skipped evs = [] ->
  exists evs' st2,
    batch_body limit batch no_tally total batches acc st k = Ok (acc, st2)
    /\ trace st2 = trace st ++ evs'
    /\ pacing evs' = pacing evs ++ [Pause 1]
    /\ skipped evs' = [k + 1].
Proof.
  intros Hg Ht Hs.
  assert (call_batch limit batch total batches (acc, st) k = (JArr [], st1))
    as Hc by exact Hg.
  exists ([Print (MsgBatch (k + 1) batches (batch_size_at limit total acc))]
          ++ evs ++ [Print (MsgBatchFailed (k + 1)); Sleep 1]),
    (sleep 1 (print (MsgBatchFailed (k + 1)) st1)).
  split; [|split; [|split]].
  - rewrite batch_body_empty; rewrite Hc; reflexivity.
  - unfold sleep, print, emit in *. cbn [trace] in *. rewrite Ht.
    now rewrite <- !app_assoc.
  - rewrite !pacing_app. reflexivity.
  - rewrite !skipped_app, Hs. reflexivity.
Qed.

End MainDishesFacts.

(** C1, as the code has it.  For a total and a batch limit of at
    least one, a run that returns has gone through as many batches as
    the ceiling of total over limit, and batch [k] asked for the
    smaller of the limit and the total less what was collected before
    it.  When every batch brought exactly what it was asked for, the
    counts asked for add up to the total, batch [k] asking for the
    smaller of the limit and [total - k * limit] (12 with 5: 5, 5, 2). *)
Theorem batches_and_requested_counts (World : Type)
    (create : World -> request -> result str * World)
    (loads : str -> option json) limit key info total
    (st : state World) acc st' :
  1 <= limit -> 1 <= total ->
  main_dishes_orchestrator create loads limit key info total st
  = Ok (acc, st') ->
  let batch := main_dishes_batch create loads key info in
  let st0 := print (MsgGenerating total) st in
  let n := Z.to_nat (batch_count limit total) in
  (Z.of_nat n - 1) * limit < total <= Z.of_nat n * limit
  /\ exists evs,
      trace st' = trace st ++ evs
      /\ length (requested evs) = n
      /\ (forall k, (k < n)%nat ->
            exists q,
              before_batch limit batch no_tally total tt st0 k = Ok q
              /\ nth_error (requested evs) k
                 = Some (Z.min limit (total - len (all_dishes (fst q)))))
      /\ ((forall k, (k < n)%nat ->
              exists items,
                batch_result limit batch no_tally total tt st0 k
                = Ok (JArr items)
                /\ request_size limit batch no_tally total tt st0 k
                   = Ok (len items)) ->
          requested evs
          = map (fun k => Z.min limit (total - Z.of_nat k * limit)) (seq 0 n)
          /\ sum (requested evs) = total
          /\ len (all_dishes acc) = total).
Proof.
  intros Hl Ht H.
  exact (run_requests World unit limit
           (main_dishes_batch create loads key info) no_tally
           (main_dishes_batch_quiet World create loads key info)
           total tt st acc st' Hl Ht H).
Qed.

Lemma batches_and_requested_counts_witness :
  exists acc st' evs,
    main_dishes_orchestrator exact_create toy_loads 5 (lit "omakase")
      some_category 12 (start tt) = Ok (acc, st')
    /\ trace st' = trace (start tt) ++ evs
    /\ requested evs = [5; 5; 2]
    /\ sum (requested evs) = 12
    /\ len (all_dishes acc) = 12.
Proof.
  destruct (main_dishes_orchestrator exact_create toy_loads 5 (lit "omakase")
              some_category 12 (start tt)) as [[acc st']|e] eqn:E;
    [|vm_compute in E; discriminate].
  destruct (batches_and_requested_counts unit exact_create toy_loads 5
              (lit "omakase") some_category 12 (start tt) acc st'
              ltac:(lia) ltac:(lia) E)
    as (_ & evs & Ht & _ & _ & Hx).
  destruct Hx as (Hr & Hs & Hlen).
  - intros k Hk. change (Z.to_nat (batch_count 5 12)) with 3%nat in Hk.
    destruct k as [|[|[|k]]]; [| | |lia];
      vm_compute; eexists; split; reflexivity.
  - exists acc, st', evs. repeat split; assumption.
Defined.

(** C1 as stated fails: with a backend that is down the three batches
    of a total of 12 by 5 ask for 5, 5 and 5 items, 15 in all. *)
Lemma batches_and_requested_counts_counterexample :
  exists acc st',
    main_dishes_orchestrator down_create no_loads 5 (lit "omakase")
      some_category 12 (start tt) = Ok (acc, st')
    /\ requested (trace st') = [5; 5; 5]
    /\ sum (requested (trace st')) <> 12.
Proof.
  eexists. eexists. split; [vm_compute; reflexivity|].
  split; [reflexivity | vm_compute; discriminate].
Qed.





(** C10.  When the first reply of a batch parses into an object that
    has no items key, or an empty list under it, the batch generator
    returns the empty list after that one call, without a pause or a
    second attempt.  The loop body then does what it does after three
    failed attempts: it keeps the accumulator, records the batch as
    skipped and pauses one second.  Only the calls and pauses of the
    batch generator tell the two apart. *)
Theorem empty_items_skip_without_retry (World : Type)
    (create : World -> request -> result str * World)
    (loads : str -> option json) limit key info total batches
    (acc : accumulator unit) (st : state World) k :
  let batch := main_dishes_batch create loads key info in
  let rq := main_dishes_request key info (batch_size_at limit total acc)
              (existing_names acc) in
  (forall content text fields,
      reply_at create rq 0 (world st) = Ok content ->
      response_extractor (strip content) = Ok text ->
      loads text = Some (JObj fields) ->
      dict_get fields (lit "mainDishes") = None
      \/ dict_get fields (lit "mainDishes") = Some (JArr []) ->
      exists evs st2,
        fst (call_batch limit batch total batches (acc, st) k) = JArr []
        /\ batch_body limit batch no_tally total batches acc st k
           = Ok (acc, st2)
        /\ trace st2 = trace st ++ evs
        /\ pacing evs = [Call; Pause 1]
        /\ skipped evs = [k + 1])
  /\ ((forall j, (j < 3)%nat ->
         reply_fails loads (lit "mainDishes") (reply_at create rq j (world st))
         = true) ->
      exists evs st2,
        fst (call_batch limit batch total batches (acc, st) k) = JArr []
        /\ batch_body limit batch no_tally total batches acc st k
           = Ok (acc, st2)
        /\ trace st2 = trace st ++ evs
        /\ pacing evs = [Call; Pause 3; Call; Pause 3; Call; Pause 1]
        /\ skipped evs = [k + 1]).
Proof.
  intros batch rq.
  set (st0 := print (MsgBatch (k + 1) batches (batch_size_at limit total acc)) st).
  split.
  - intros content text fields Hc Ht Hl Hg.
    destruct (generate_batch_returns World create loads rq (lit "mainDishes")
                (batch_size_at limit total acc) st0 0 (JArr []))
      as (evs & st1 & H & _ & Htr & Hp & _ & _ & Hs).
    + lia.
    + intros j Hj. lia.
    + change (world st0) with (world st). rewrite Hc.
      unfold attempt_value, parse_reply, json_loads. cbn [bind].
      rewrite Ht. cbn [bind]. rewrite Hl. cbn [bind py_get].
      now destruct Hg as [-> | ->].
    + destruct (main_body_after_nothing World create loads limit key info
                  total batches acc st st1 k evs H Htr Hs)
        as (evs' & st2 & Hb & Htr' & Hp' & Hs').
      exists evs', st2. split; [|split; [|split; [|split]]]; auto.
      * unfold call_batch, batch, main_dishes_batch. cbn [fst snd].
        fold st0. unfold generate_main_dishes_batch. fold rq.
        now rewrite H.
      * now rewrite Hp', Hp.
  - intros Hf.
    destruct (generate_batch_exhausted World create loads rq (lit "mainDishes")
                (batch_size_at limit total acc) st0 Hf)
      as (evs & st1 & H & Htr & Hp & _ & _ & Hs).
    destruct (main_body_after_nothing World create loads limit key info
                total batches acc st st1 k evs H Htr Hs)
      as (evs' & st2 & Hb & Htr' & Hp' & Hs').
    exists evs', st2. split; [|split; [|split; [|split]]]; auto.
    + unfold call_batch, batch, main_dishes_batch. cbn [fst snd].
      fold st0. unfold generate_main_dishes_batch. fold rq.
      now rewrite H.
    + now rewrite Hp', Hp.
Qed.

Lemma empty_items_skip_without_retry_witness :
  exists evs st2,
    batch_body 5
      (main_dishes_batch keyless_create toy_loads (lit "omakase") some_category)
      no_tally 12 3 (fresh tt) (start tt) 0
    = Ok (fresh tt, st2)
    /\ trace st2 = trace (start tt) ++ evs
    /\ pacing evs = [Call; Pause 1]
    /\ skipped evs = [1].
Proof.
  destruct (proj1 (empty_items_skip_without_retry unit keyless_create toy_loads
                     5 (lit "omakase") some_category 12 3 (fresh tt)
                     (start tt) 0)
              (lit "k") (lit "k") [(lit "other", JInt 1)]
              eq_refl eq_refl eq_refl (or_introl eq_refl))
    as (evs & st2 & _ & Hb & Ht & Hp & Hs).
  exists evs, st2. split; [exact Hb|]. split; [exact Ht|].
  split; [exact Hp | exact Hs].
Defined.

(** ** The merge into the persisted document *)

Section DictFacts.

Implicit Types fields : list (str * json).

Lemma str_eqb_refl (a : str) : str_eqb a a = true.
Proof. induction a; simpl; auto. now rewrite N.eqb_refl. Qed.

Lemma str_eqb_eq (a b : str) : str_eqb a b = true -> a = b.
Proof.
  revert b; induction a as [|x a IH]; intros [|y b] H; simpl in *;
    try discriminate; auto.
  apply andb_true_iff in H as [E H]. apply N.eqb_eq in E as ->.
  f_equal. now apply IH.
Qed.

Lemma str_eqb_neq (a b : str) : a <> b -> str_eqb a b = false.
Proof.
  intros H. destruct (str_eqb a b) eqn:E; auto.
  now apply str_eqb_eq in E.
Qed.

Lemma dict_get_setitem_same fields k v :
  dict_get (dict_setitem fields k v) k = Some v.
Proof.
  induction fields as [|[k0 w] fields IH]; simpl.
  - now rewrite str_eqb_refl.
  - destruct (str_eqb k0 k) eqn:E; simpl; now rewrite E.
Qed.

Lemma dict_get_setitem_other fields k v k' :
  k' <> k -> dict_get (dict_setitem fields k v) k' = dict_get fields k'.
Proof.
  intros H. induction fields as [|[k0 w] fields IH]; simpl.
  - rewrite str_eqb_neq; auto.
  - destruct (str_eqb k0 k) eqn:E; simpl.
    + apply str_eqb_eq in E as ->. rewrite str_eqb_neq; auto.
    + now rewrite IH.
Qed.

Lemma dict_keys_setitem fields k v :
  In k (dict_keys fields) ->
  dict_keys (dict_setitem fields k v) = dict_keys fields.
Proof.
  induction fields as [|[k0 w] fields IH]; simpl; [tauto|].
  intros [->|H].
  - now rewrite str_eqb_refl.
  - destruct (str_eqb k0 k); simpl; auto. now rewrite IH.
Qed.

End DictFacts.

(** C7.  Merging the new dishes into a loaded document puts them
    under the key [simple] in place of what was there, leaves the
    value of every other key and the order of the keys as they were;
    when the document file is not found the merge starts from the
    four category keys, each with an empty list. *)
Theorem merge_replaces_simple_only (World : Type) (st : state World)
    (all_main_dishes : json) :
  (forall fields,
      merge_simple (Ok (JObj fields)) all_main_dishes st
      = Ok (JObj (dict_setitem fields (lit "simple") all_main_dishes), st)
      /\ dict_get (dict_setitem fields (lit "simple") all_main_dishes)
           (lit "simple") = Some all_main_dishes
      /\ (forall k, k <> lit "simple" ->
            dict_get (dict_setitem fields (lit "simple") all_main_dishes) k
            = dict_get fields k)
      /\ (In (lit "simple") (dict_keys fields) ->
          dict_keys (dict_setitem fields (lit "simple") all_main_dishes)
          = dict_keys fields))
  /\ load_categories (Raise FileNotFoundError) st
     = Ok (JObj [ (lit "omakase", JArr []); (lit "hearty", JArr []);
                  (lit "fishMain", JArr []); (lit "simple", JArr []) ],
           print MsgNotFound st)
  /\ merge_simple (Raise FileNotFoundError) all_main_dishes st
     = Ok (JObj [ (lit "omakase", JArr []); (lit "hearty", JArr []);
                  (lit "fishMain", JArr []); (lit "simple", all_main_dishes) ],
           print MsgNotFound st)
  /\ (forall X Y,
         merge_simple
           (Ok (JObj [ (lit "omakase", JArr [X]); (lit "hearty", JArr []);
                       (lit "fishMain", JArr []); (lit "simple", JArr []) ]))
           (JArr [Y]) st
         = Ok (JObj [ (lit "omakase", JArr [X]); (lit "hearty", JArr []);
                      (lit "fishMain", JArr []); (lit "simple", JArr [Y]) ],
               st)).
Proof.
  split; [|split; [|split]].
  - intros fields. split; [reflexivity|]. split; [|split].
    + apply dict_get_setitem_same.
    + intros k Hk. now apply dict_get_setitem_other.
    + apply dict_keys_setitem.
  - reflexivity.
  - reflexivity.
  - intros X Y. reflexivity.
Qed.

Lemma merge_replaces_simple_only_witness :
  dict_get
    (dict_setitem [ (lit "omakase", JArr [JInt 1]); (lit "simple", JArr []) ]
       (lit "simple") (JArr [JInt 2]))
    (lit "omakase")
  = Some (JArr [JInt 1])
  /\ dict_keys
       (dict_setitem [ (lit "omakase", JArr [JInt 1]); (lit "simple", JArr []) ]
          (lit "simple") (JArr [JInt 2]))
     = [lit "omakase"; lit "simple"].
Proof.
  destruct (proj1 (merge_replaces_simple_only unit (start tt) (JArr [JInt 2]))
              [ (lit "omakase", JArr [JInt 1]); (lit "simple", JArr []) ])
    as (_ & _ & Hother & Hkeys).
  split.
  - apply Hother. discriminate.
  - apply Hkeys. right. left. reflexivity.
Defined.

(** C5 as stated fails: a reply that parses into a top-level list of
    one item is a failed attempt.  The batch generator calls three
    times and returns nothing. *)
Lemma generate_batch_returns_items_counterexample :
  fst (listing_create tt (main_dishes_request (lit "omakase") some_category 1 []))
  = Ok (lit "a")
  /\ response_extractor (strip (lit "a")) = Ok (lit "a")
  /\ json_loads toy_loads (lit "a") = Ok (JArr [toy_item 97%N])
  /\ fst (generate_main_dishes_batch listing_create toy_loads (lit "omakase")
            some_category 1 [] (start tt)) = JArr []
  /\ pacing (trace (snd (generate_main_dishes_batch listing_create toy_loads
                           (lit "omakase") some_category 1 [] (start tt))))
     = [Call; Pause 3; Call; Pause 3; Call].
Proof. repeat apply conj; reflexivity. Qed.

(** ** The embedding at work *)

Example split_like_python :
  split FENCE (lit "a```b```c") = Ok [lit "a"; lit "b"; lit "c"]
  /\ split FENCE (lit "````") = Ok [lit ""; lit "`"]
  /\ split FENCE (lit "abc") = Ok [lit "abc"].
Proof. repeat apply conj; reflexivity. Qed.

Example strip_like_python :
  strip (lit "  {1}
 ") = lit "{1}" /\ strip [12288; 65; 160]%N = [65]%N.
Proof. split; reflexivity. Qed.

Example extract_fenced_reply :
  response_extractor (lit "Here you are:
```json
{1}
```
Enjoy!") = Ok (lit "{1}").
Proof. reflexivity. Qed.

Example range_and_last_n :
  range 3 = [0; 1; 2] /\ range (-1) = []
  /\ last_n 2 [1; 2; 3] = [2; 3] /\ last_n 5 [1; 2; 3] = [1; 2; 3].
Proof. repeat apply conj; reflexivity. Qed.

Example sorted_desc_is_stable :
  sorted_desc [(lit "a", 1); (lit "b", 2); (lit "c", 1); (lit "d", 2)]
  = [(lit "b", 2); (lit "d", 2); (lit "a", 1); (lit "c", 1)].
Proof. reflexivity. Qed.

(** Twelve dishes by five from a backend that delivers: three
    batches of one call each. *)
Example twelve_by_five :
  match generate_main_dishes_for_category exact_create toy_loads
          (lit "omakase") some_category 12 (start tt) with
  | Ok (dishes, st) =>
      len dishes = 12
      /\ requested (trace st) = [5; 5; 2]
      /\ pacing (trace st) = [Call; Pause 1; Call; Pause 1; Call; Pause 1]
  | Raise _ => False
  end.
Proof. vm_compute. repeat apply conj; reflexivity. Qed.

(** A batch whose items are not objects aborts the run: the names
    cannot be read off. *)
Example strings_for_items_abort :
  batch_body 5 (fun _ _ _ st => (JArr [JStr (lit "soup")], st)) no_tally
    12 3 (fresh tt) (start tt) 0
  = Raise AttributeError.
Proof. reflexivity. Qed.

(** * Further properties *)

(** ** The cost of one batch *)

(** X1.  Whatever the backend does, a batch costs one to three calls,
    all with the same prompt, with a pause of three seconds before
    each call but the first and none after the last. *)
Theorem generate_batch_calls_bounded (World : Type)
    (create : World -> request -> result str * World)
    (loads : str -> option json) rq key count (st : state World) :
  exists k evs,
    (k < 3)%nat
    /\ trace (snd (generate_batch create loads rq key count st))
       = trace st ++ evs
    /\ pacing evs = failures k ++ [Call]
    /\ requests evs = repeat rq (S k)
    /\ calls (pacing evs) = Z.of_nat k + 1
    /\ slept (pacing evs) = 3 * Z.of_nat k.
Proof. apply generate_batch_shape. Qed.

(** An attempt only returns what has a length. *)
Lemma attempt_value_sized (loads : str -> option json) key reply v :
  attempt_value loads key reply = Ok v -> exists n, py_len v = Ok n /\ 0 <= n.
Proof.
  unfold attempt_value, parse_reply. destruct reply as [content|e];
    cbn [bind]; [|discriminate].
  destruct (response_extractor (strip content)) as [text|e]; cbn [bind];
    [|discriminate].
  destruct (json_loads loads text) as [data|e]; cbn [bind]; [|discriminate].
  destruct (py_get data key (JArr [])) as [items|e]; cbn [bind];
    [|discriminate].
  destruct (py_len items) as [n|e] eqn:Hn; cbn [bind]; [|discriminate].
  intros [= <-]. exists n. split; auto.
  destruct items; simpl in Hn; try discriminate; injection Hn as <-; lia.
Qed.

Lemma retry_loop_sized (World : Type)
    (create : World -> request -> result str * World)
    (loads : str -> option json) attempts :
  forall rq key count (st : state World),
  exists n,
    py_len (fst (retry_loop create loads attempts rq key count st)) = Ok n
    /\ 0 <= n.
Proof.
  induction attempts as [|a rest IH]; intros rq key count st.
  - exists 0. simpl. split; [reflexivity | lia].
  - destruct (retry_loop_step World create loads a rest rq key count st)
      as (evs & st1 & _ & _ & _ & _ & _ & Hm).
    destruct (attempt_value loads key (fst (create (world st) rq))) as [v|e] eqn:E.
    + destruct Hm as [-> _]. apply (attempt_value_sized _ _ _ _ E).
    + destruct (a <? max_retries - 1); destruct Hm as [-> _].
      * apply IH.
      * exists 0. simpl. split; [reflexivity | lia].
Qed.

(** X2.  What a batch generator returns always has a length: a list,
    a string or a dict, never a number, a boolean or null.  A reply
    whose items are one of those is a failed attempt. *)
Theorem generate_batch_result_sized (World : Type)
    (create : World -> request -> result str * World)
    (loads : str -> option json) rq key count (st : state World) :
  (exists n,
      py_len (fst (generate_batch create loads rq key count st)) = Ok n
      /\ 0 <= n)
  /\ (forall content text fields items,
         response_extractor (strip content) = Ok text ->
         loads text = Some (JObj fields) ->
         dict_get fields key = Some items ->
         py_len items = Raise TypeError ->
         reply_fails loads key (Ok content) = true).
Proof.
  split.
  - apply retry_loop_sized.
  - intros content text fields items Ht Hl Hg Hn.
    unfold reply_fails, attempt_value, parse_reply, json_loads. cbn [bind].
    rewrite Ht. cbn [bind]. rewrite Hl. cbn [bind py_get]. rewrite Hg.
    cbn [bind]. now rewrite Hn.
Qed.

(** ** What a run collects *)

Lemma comprehension_app {A B : Type} (f : A -> result B) l1 l2 :
  comprehension f (l1 ++ l2)
  = (a <- comprehension f l1 ;; b <- comprehension f l2 ;; Ok (a ++ b)).
Proof.
  induction l1 as [|x l1 IH]; simpl.
  - now destruct (comprehension f l2).
  - destruct (f x); simpl; auto. rewrite IH.
    destruct (comprehension f l1); simpl; auto.
    now destruct (comprehension f l2).
Qed.

Lemma comprehension_length {A B : Type} (f : A -> result B) l : forall l',
  comprehension f l = Ok l' -> length l' = length l.
Proof.
  induction l as [|x l IH]; simpl; intros l'.
  - now intros [= <-].
  - destruct (f x); simpl; [|discriminate].
    destruct (comprehension f l) as [bs|]; simpl; [|discriminate].
    intros [= <-]. simpl. now rewrite (IH bs).
Qed.

Lemma orchestrate_limit {World Dist : Type} limit
    (batch : Z -> list json -> Dist -> state World -> json * state World)
    (tally : list json -> Dist -> result Dist) total m st p :
  orchestrate limit batch tally total m st = Ok p -> limit <> 0.
Proof.
  intros H ->. unfold orchestrate, run_batches in H. simpl in H. discriminate.
Qed.

Section CollectedFacts.

Variable World : Type.
Variable Dist : Type.
Variable limit : Z.
Variable batch : Z -> list json -> Dist -> state World -> json * state World.
Variable tally : list json -> Dist -> result Dist.

Local Abbreviation before_batch := (before_batch limit batch tally).
Local Abbreviation batch_items := (batch_items limit batch tally).

(** After [k] batches the dishes are those of the batches, one batch
    after the other, and the names are the names of the dishes. *)
Lemma before_batch_collected total m (st : state World) k : forall q,
  before_batch total m st k = Ok q ->
  all_dishes (fst q) = concat (map (batch_items total m st) (seq 0 k))
  /\ comprehension item_name (all_dishes (fst q))
     = Ok (existing_names (fst q)).
Proof.
  induction k as [|k IH]; intros q Hq.
  - injection Hq as <-. split; reflexivity.
  - destruct (before_batch_inv _ _ _ _ _ _ _ _ _ _ Hq) as ([acc st1] & Hq' & Hb).
    destruct (IH _ Hq') as (Hall & Hnames). cbn [fst snd] in *.
    rewrite seq_S, map_app, concat_app. cbn [map concat Nat.add].
    rewrite app_nil_r, <- Hall.
    unfold batch_items.
    rewrite (batch_result_at _ _ _ _ _ _ _ _ _ _ Hq').
    rewrite batch_body_unfold in Hb. cbv zeta in Hb.
    destruct (py_bool (fst (call_batch limit batch total
                              (batch_count limit total) (acc, st1)
                              (Z.of_nat k)))).
    + destruct (py_iter _) as [items|]; cbn [bind] in Hb; [|discriminate].
      destruct (comprehension item_name items) as [names|] eqn:Hn;
        cbn [bind] in Hb; [|discriminate].
      destruct (tally items (existing_methods acc)) as [m'|];
        cbn [bind] in Hb; [|discriminate].
      injection Hb as <-. cbn [fst all_dishes existing_names].
      split; [reflexivity|].
      rewrite comprehension_app, Hnames. cbn [bind]. now rewrite Hn.
    + injection Hb as <-. cbn [fst]. rewrite app_nil_r. now split.
Qed.

End CollectedFacts.

(** X3.  The dishes a run returns are the dishes of its batches, in
    the order of the batches and, within a batch, in the order the batch
    generator returned them; the name list holds the name of every
    one of them, in the same order. *)
Theorem dishes_in_batch_order (World Dist : Type) (limit : Z)
    (batch : Z -> list json -> Dist -> state World -> json * state World)
    (tally : list json -> Dist -> result Dist) total m
    (st : state World) acc st' :
  orchestrate limit batch tally total m st = Ok (acc, st') ->
  let st0 := print (MsgGenerating total) st in
  let n := Z.to_nat (batch_count limit total) in
  all_dishes acc
  = concat (map (batch_items limit batch tally total m st0) (seq 0 n))
  /\ comprehension item_name (all_dishes acc) = Ok (existing_names acc)
  /\ length (existing_names acc) = length (all_dishes acc).
Proof.
  intros H st0 n. pose proof (orchestrate_limit _ _ _ _ _ _ _ H) as Hl.
  destruct (orchestrate_inv _ _ _ _ _ _ _ _ _ _ Hl H) as (st1 & Hb & _).
  destruct (before_batch_collected _ _ _ _ _ _ _ _ _ _ Hb) as (Hall & Hn).
  cbn [fst] in *. split; [exact Hall|]. split; [exact Hn|].
  apply (comprehension_length _ _ _ Hn).
Qed.

Lemma dishes_in_batch_order_witness :
  exists acc st',
    main_dishes_orchestrator flaky_create toy_loads 5 (lit "omakase")
      some_category 7 (start 0%nat) = Ok (acc, st')
    /\ all_dishes acc = map toy_item (lit "xyxy")
    /\ existing_names acc = map (fun c => JStr [c]) (lit "xyxy").
Proof.
  destruct (main_dishes_orchestrator flaky_create toy_loads 5 (lit "omakase")
              some_category 7 (start 0%nat)) as [[acc st']|e] eqn:E;
    [|vm_compute in E; discriminate].
  destruct (dishes_in_batch_order nat unit 5
              (main_dishes_batch flaky_create toy_loads (lit "omakase")
                 some_category)
              no_tally 7 tt (start 0%nat) acc st' E) as (Hall & Hn & _).
  exists acc, st'. split; [reflexivity|]. split; [exact Hall|].
  rewrite Hall in Hn.
  change (Ok (map (fun c => JStr [c]) (lit "xyxy")) = Ok (existing_names acc))
    in Hn.
  now injection Hn as <-.
Defined.

(** ** What a run costs *)

Section CostFacts.

Variable World : Type.
Variable Dist : Type.
Variable limit : Z.
Variable batch : Z -> list json -> Dist -> state World -> json * state World.
Variable tally : list json -> Dist -> result Dist.

(** The batch generator calls one to three times, pausing three
    seconds between two calls. *)
Hypothesis batch_paced : forall count names methods st,
  exists k evs,
    (k < 3)%nat
    /\ trace (snd (batch count names methods st)) = trace st ++ evs
    /\ pacing evs = failures k ++ [Call].

Local Abbreviation before_batch := (before_batch limit batch tally).
Local Abbreviation batch_body := (batch_body limit batch tally).
Local Abbreviation orchestrate := (orchestrate limit batch tally).

(** One turn of the loop: the calls of the batch, then one second. *)
Lemma batch_body_pacing total batches acc acc' (st st' : state World) n :
  batch_body total batches acc st n = Ok (acc', st') ->
  exists k evs,
    (k < 3)%nat
    /\ trace st' = trace st ++ evs
    /\ pacing evs = failures k ++ [Call; Pause 1].
Proof.
  rewrite batch_body_unfold. unfold call_batch. cbn [fst snd]. cbv zeta.
  destruct (batch_paced (batch_size_at limit total acc) (existing_names acc)
              (existing_methods acc)
              (print (MsgBatch (n + 1) batches (batch_size_at limit total acc)) st))
    as (k & evs & Hk & Ht & Hp).
  destruct (batch _ _ _ _) as [b st1]. cbn [fst snd] in *.
  unfold print, emit in Ht. cbn [trace] in Ht.
  destruct (py_bool b).
  - destruct (py_iter b) as [items|]; cbn [bind]; [|discriminate].
    destruct (comprehension item_name items) as [names|]; cbn [bind];
      [|discriminate].
    destruct (tally items (existing_methods acc)) as [m|]; cbn [bind];
      [|discriminate].
    intros [= <- <-]. exists k. eexists. split; [exact Hk|].
    unfold sleep, print, emit. cbn [trace]. rewrite Ht, <- !app_assoc.
    split; [reflexivity|].
    cbn [app pacing]. rewrite pacing_app, Hp. cbn [pacing].
    now rewrite <- app_assoc.
  - intros [= <- <-]. exists k. eexists. split; [exact Hk|].
    unfold sleep, print, emit. cbn [trace]. rewrite Ht, <- !app_assoc.
    split; [reflexivity|].
    cbn [app pacing]. rewrite pacing_app, Hp. cbn [pacing].
    now rewrite <- app_assoc.
Qed.

Lemma before_batch_cost total m (st : state World) k : forall q,
  before_batch total m st k = Ok q ->
  exists evs,
    trace (snd q) = trace st ++ evs
    /\ Z.of_nat k <= calls (pacing evs) <= 3 * Z.of_nat k
    /\ slept (pacing evs)
       = Z.of_nat k + 3 * (calls (pacing evs) - Z.of_nat k).
Proof.
  induction k as [|k IH]; intros q Hq.
  - injection Hq as <-. exists []. cbn [snd]. rewrite app_nil_r.
    cbn [pacing calls slept]. repeat split; lia.
  - destruct (before_batch_inv _ _ _ _ _ _ _ _ _ _ Hq) as ([acc st1] & Hq' & Hb).
    destruct (IH _ Hq') as (evs & Ht & Hc & Hs). destruct q as [acc' st'].
    cbn [fst snd] in *.
    destruct (batch_body_pacing _ _ _ _ _ _ _ Hb) as (j & evs' & Hj & Ht' & Hp).
    exists (evs ++ evs'). rewrite Ht', Ht, <- app_assoc. split; [reflexivity|].
    rewrite pacing_app, calls_app, slept_app, Hp.
    change (failures j ++ [Call; Pause 1])
      with (failures j ++ [Call] ++ [Pause 1]).
    rewrite app_assoc, calls_app, slept_app, calls_failures, slept_failures.
    cbn [calls slept]. rewrite Nat2Z.inj_succ. split; lia.
Qed.

Lemma orchestrate_cost total m (st : state World) acc st' :
  orchestrate total m st = Ok (acc, st') ->
  let n := Z.of_nat (Z.to_nat (batch_count limit total)) in
  exists evs,
    trace st' = trace st ++ evs
    /\ n <= calls (pacing evs) <= 3 * n
    /\ slept (pacing evs) = n + 3 * (calls (pacing evs) - n).
Proof.
  intros H n. pose proof (orchestrate_limit _ _ _ _ _ _ _ H) as Hl.
  destruct (orchestrate_inv _ _ _ _ _ _ _ _ _ _ Hl H) as (st1 & Hb & ->).
  destruct (before_batch_cost _ _ _ _ _ Hb) as (evs & Ht & Hc & Hs).
  cbn [snd] in Ht.
  exists ([Print (MsgGenerating total)] ++ evs
          ++ [Print (MsgCompleted (len (all_dishes acc)))]).
  unfold print, emit in *. cbn [trace] in *. rewrite Ht, <- !app_assoc.
  split; [reflexivity|].
  cbn [app pacing]. rewrite pacing_app. cbn [pacing]. rewrite app_nil_r.
  now split.
Qed.

End CostFacts.

Lemma main_dishes_batch_paced (World : Type)
    (create : World -> request -> result str * World)
    (loads : str -> option json) key info :
  forall count names (u : unit) (st : state World),
  exists k evs,
    (k < 3)%nat
    /\ trace (snd (main_dishes_batch create loads key info count names u st))
       = trace st ++ evs
    /\ pacing evs = failures k ++ [Call].
Proof.
  intros count names u st.
  destruct (generate_batch_shape World create loads
              (main_dishes_request key info count names) (lit "mainDishes")
              count st) as (k & evs & Hk & Ht & Hp & _).
  now exists k, evs.
Qed.

(** X4.  A run of the main-dish orchestrator that returns has made
    at least one and at most three calls per batch, and has slept one
    second per batch and three seconds per call beyond the first of
    a batch: at most seven seconds per batch. *)
Theorem run_calls_and_sleep (World : Type)
    (create : World -> request -> result str * World)
    (loads : str -> option json) limit key info total
    (st : state World) acc st' :
  main_dishes_orchestrator create loads limit key info total st
  = Ok (acc, st') ->
  let n := Z.of_nat (Z.to_nat (batch_count limit total)) in
  exists evs,
    trace st' = trace st ++ evs
    /\ n <= calls (pacing evs) <= 3 * n
    /\ slept (pacing evs) = n + 3 * (calls (pacing evs) - n)
    /\ slept (pacing evs) <= 7 * n.
Proof.
  intros H n.
  destruct (orchestrate_cost World unit limit
              (main_dishes_batch create loads key info) no_tally
              (main_dishes_batch_paced World create loads key info)
              total tt st acc st' H) as (evs & Ht & Hc & Hs).
  exists evs. fold n in Hc, Hs. repeat split; try tauto; lia.
Qed.

Lemma run_calls_and_sleep_witness :
  exists acc st' evs,
    main_dishes_orchestrator flaky_create toy_loads 5 (lit "omakase")
      some_category 7 (start 0%nat) = Ok (acc, st')
    /\ trace st' = trace (start 0%nat) ++ evs
    /\ 2 <= calls (pacing evs) <= 6
    /\ slept (pacing evs) <= 14.
Proof.
  destruct (main_dishes_orchestrator flaky_create toy_loads 5 (lit "omakase")
              some_category 7 (start 0%nat)) as [[acc st']|e] eqn:E;
    [|vm_compute in E; discriminate].
  destruct (run_calls_and_sleep nat flaky_create toy_loads 5 (lit "omakase")
              some_category 7 (start 0%nat) acc st' E)
    as (evs & Ht & Hc & _ & Hs).
  exists acc, st', evs. split; [reflexivity|]. split; [exact Ht|].
  split; [exact Hc | exact Hs].
Defined.

(** ** Runs that ask for nothing *)

(** X5.  With a total of zero or less the orchestrator makes no batch
    and no call: it announces the run, reports zero dishes and returns
    the empty list. *)
Theorem nothing_to_generate (World : Type)
    (create : World -> request -> result str * World)
    (loads : str -> option json) key info total (st : state World) :
  total <= 0 ->
  generate_main_dishes_for_category create loads key info total st
  = Ok ([], print (MsgCompleted 0) (print (MsgGenerating total) st)).
Proof.
  intros Ht.
  unfold generate_main_dishes_for_category, main_dishes_orchestrator,
    orchestrate, run_batches, batch_count, BATCH_SIZE.
  change (5 =? 0) with false. cbv iota.
  assert ((total + 5 - 1) / 5 <= 0) as Hn.
  { assert ((total + 5 - 1) / 5 < 1); [|lia].
    apply Z.div_lt_upper_bound; lia. }
  unfold range. replace (Z.to_nat ((total + 5 - 1) / 5)) with 0%nat by lia.
  reflexivity.
Qed.

Lemma nothing_to_generate_witness :
  generate_main_dishes_for_category exact_create toy_loads (lit "omakase")
    some_category 0 (start tt)
  = Ok ([], print (MsgCompleted 0) (print (MsgGenerating 0) (start tt))).
Proof.
  apply (nothing_to_generate unit exact_create toy_loads (lit "omakase")
           some_category 0 (start tt)).
  lia.
Defined.

(** ** The tally of cooking methods *)

Lemma str_eqb_sym (a b : str) : str_eqb a b = str_eqb b a.
Proof.
  revert b; induction a as [|x a IH]; intros [|y b]; simpl; auto.
  now rewrite IH, N.eqb_sym.
Qed.

Section TallyFacts.

Implicit Types methods : list (str * Z).

Lemma increment_keys methods label :
  map fst (increment methods label) = map fst methods.
Proof.
  induction methods as [|[k n] methods IH]; simpl; auto.
  destruct (str_eqb k label); simpl; auto. now rewrite IH.
Qed.

Lemma method_get_increment methods l label :
  method_get (increment methods l) label
  = option_map (fun n => if str_eqb l label then n + 1 else n)
      (method_get methods label).
Proof.
  induction methods as [|[k n] methods IH]; simpl; auto.
  destruct (str_eqb k l) eqn:Ekl; simpl.
  - apply str_eqb_eq in Ekl as ->.
    destruct (str_eqb l label); [reflexivity|].
    now destruct (method_get methods label).
  - destruct (str_eqb k label) eqn:Ek; simpl; auto.
    apply str_eqb_eq in Ek as ->. now rewrite (str_eqb_sym l label), Ekl.
Qed.

End TallyFacts.

Lemma method_get_unknown (methods : list (str * Z)) label :
  existsb (fun kv => str_eqb (fst kv) label) methods = false ->
  method_get methods label = None.
Proof.
  induction methods as [|[k n] methods IH]; simpl; auto.
  destruct (str_eqb k label); simpl; [discriminate | exact IH].
Qed.

Lemma len_cons {A : Type} (x : A) l : len (x :: l) = len l + 1.
Proof. unfold len. simpl length. lia. Qed.

Lemma count_methods_spec (batch_side_dishes : list json) :
  forall existing_methods methods,
  count_methods batch_side_dishes existing_methods = Ok methods ->
  map fst methods = map fst existing_methods
  /\ forall label,
      method_get methods label
      = option_map
          (fun n => n + len (filter (has_method label) batch_side_dishes))
          (method_get existing_methods label).
Proof.
  induction batch_side_dishes as [|sd items IH]; intros methods methods' H;
    cbn [count_methods] in H.
  - injection H as <-. split; auto. intros label.
    destruct (method_get methods label); simpl; auto. f_equal.
    unfold len. simpl. lia.
  - destruct (py_get sd (lit "cookingMethod") (JStr OTHER_METHOD))
      as [method|] eqn:Hg; cbn [bind] in H; [|discriminate].
    destruct (method_known method methods) as [known|] eqn:Hk;
      cbn [bind] in H; [|discriminate].
    destruct (IH _ _ H) as (Hkeys & Hget). split.
    + rewrite Hkeys. destruct method; try reflexivity.
      destruct known; auto using increment_keys.
    + intros label. rewrite Hget. cbn [filter]. unfold has_method at 2.
      rewrite Hg.
      destruct method as [|b|z|f|l|xs|fs];
        try (destruct (method_get methods label); reflexivity).
      cbn [method_known] in Hk. injection Hk as Hk.
      destruct known.
      * rewrite method_get_increment.
        destruct (method_get methods label) as [n|]; [|reflexivity].
        cbn [option_map]. f_equal.
        destruct (str_eqb l label); rewrite ?len_cons; lia.
      * destruct (str_eqb l label) eqn:El; [|reflexivity].
        apply str_eqb_eq in El as ->.
        now rewrite (method_get_unknown _ _ Hk).
Qed.

(** X6.  The tally of a batch: the labels stay the ones they were, in
    their order, and the count of each label grows by the number of
    side dishes of the batch whose cooking method is that label.
    Methods that are no label, the default one among them, count
    nowhere. *)
Theorem count_methods_counts_each_label (batch_side_dishes : list json)
    (existing_methods methods : list (str * Z)) :
  count_methods batch_side_dishes existing_methods = Ok methods ->
  map fst methods = map fst existing_methods
  /\ forall label,
      method_get methods label
      = option_map
          (fun n => n + len (filter (has_method label) batch_side_dishes))
          (method_get existing_methods label).
Proof. apply count_methods_spec. Qed.

Lemma count_methods_counts_each_label_witness :
  let batch_side_dishes :=
    [ JObj [(lit "cookingMethod", JStr (lit "fry"))];
      JObj [(lit "name", JStr (lit "plain"))];
      JObj [(lit "cookingMethod", JStr (lit "boil"))];
      JObj [(lit "cookingMethod", JStr (lit "fry"))] ] in
  let methods := [(lit "fry", 3); (lit "steam", 0)] in
  count_methods batch_side_dishes [(lit "fry", 1); (lit "steam", 0)]
  = Ok methods
  /\ map fst methods = [lit "fry"; lit "steam"]
  /\ method_get methods (lit "fry") = Some (1 + 2)
  /\ method_get methods (lit "steam") = Some (0 + 0)
  /\ method_get methods (lit "boil") = None.
Proof.
  intros batch_side_dishes methods.
  assert (count_methods batch_side_dishes [(lit "fry", 1); (lit "steam", 0)]
          = Ok methods) as H by (vm_compute; reflexivity).
  split; [exact H|].
  destruct (count_methods_counts_each_label batch_side_dishes
              [(lit "fry", 1); (lit "steam", 0)] methods H) as (Hk & Hg).
  split; [exact Hk|].
  split; [rewrite (Hg (lit "fry")); vm_compute; reflexivity|].
  split; [rewrite (Hg (lit "steam")); vm_compute; reflexivity|].
  rewrite (Hg (lit "boil")). vm_compute. reflexivity.
Defined.

(** X7.  The tally raises exactly when some side dish of the batch is no
    object or has a list or an object for cooking method (what a
    dict cannot look up). *)
Theorem count_methods_raises_on_unhashable (batch_side_dishes : list json) :
  forall existing_methods,
  (exists methods, count_methods batch_side_dishes existing_methods = Ok methods)
  <-> forallb tallyable batch_side_dishes = true.
Proof.
  induction batch_side_dishes as [|sd items IH]; intros methods;
    cbn [count_methods forallb].
  - split; auto. intros _. now exists methods.
  - unfold tallyable at 1.
    destruct (py_get sd (lit "cookingMethod") (JStr OTHER_METHOD))
      as [method|e]; cbn [bind].
    + destruct method as [|b|z|f|l|xs|fs]; cbn [method_known bind andb];
        try apply IH;
        (split; [intros (m & H); discriminate | discriminate]).
    + split; [intros (m & H); discriminate | discriminate].
Qed.

Section SideTallyFacts.

Variable World : Type.
Variable limit : Z.
Variable batch : Z -> list json -> list (str * Z) -> state World ->
                 json * state World.

Local Abbreviation before_batch := (before_batch limit batch count_methods).

(** After any number of batches every label counts the collected
    side dishes cooked that way. *)
Lemma before_batch_tally total methods (st : state World) k : forall q,
  before_batch total methods st k = Ok q ->
  map fst (existing_methods (fst q)) = map fst methods
  /\ forall label,
      method_get (existing_methods (fst q)) label
      = option_map
          (fun n => n + len (filter (has_method label) (all_dishes (fst q))))
          (method_get methods label).
Proof.
  induction k as [|k IH]; intros q Hq.
  - injection Hq as <-. split; auto. intros label.
    cbn [fst fresh all_dishes existing_methods filter].
    destruct (method_get methods label); simpl; auto. f_equal.
    unfold len. simpl. lia.
  - destruct (before_batch_inv _ _ _ _ _ _ _ _ _ _ Hq) as ([acc st1] & Hq' & Hb).
    destruct (IH _ Hq') as (Hkeys & Hget). cbn [fst snd] in *.
    rewrite batch_body_unfold in Hb. cbv zeta in Hb.
    destruct (py_bool _).
    + destruct (py_iter _) as [items|]; cbn [bind] in Hb; [|discriminate].
      destruct (comprehension item_name items) as [names|];
        cbn [bind] in Hb; [|discriminate].
      destruct (count_methods items (existing_methods acc)) as [m'|] eqn:Hm;
        cbn [bind] in Hb; [|discriminate].
      injection Hb as <-. cbn [fst all_dishes existing_methods].
      destruct (count_methods_spec _ _ _ Hm) as (Hk' & Hg').
      split; [congruence|]. intros label.
      rewrite Hg', Hget, filter_app, len_app.
      destruct (method_get methods label); simpl; auto. f_equal. lia.
    + injection Hb as <-. now split.
Qed.

End SideTallyFacts.

(** X8.  When a run of the side-dish orchestrator returns, the counted
    labels are still the ten cooking methods, in their order, and
    each of them counts exactly the collected side dishes cooked that
    way; a dish with another method, or none, is counted nowhere. *)
Theorem side_dishes_tally_matches (World : Type)
    (create : World -> request -> result str * World)
    (loads : str -> option json) limit total (st : state World) acc st' :
  side_dishes_orchestrator create loads limit total st = Ok (acc, st') ->
  map fst (existing_methods acc) = COOKING_METHODS
  /\ (forall label, In label COOKING_METHODS ->
        method_get (existing_methods acc) label
        = Some (len (filter (has_method label) (all_dishes acc))))
  /\ (forall label, ~ In label COOKING_METHODS ->
        method_get (existing_methods acc) label = None).
Proof.
  intros H. pose proof (orchestrate_limit _ _ _ _ _ _ _ H) as Hl.
  destruct (orchestrate_inv _ _ _ _ _ _ _ _ _ _ Hl H) as (st1 & Hb & _).
  destruct (before_batch_tally _ _ _ _ _ _ _ _ Hb) as (Hkeys & Hget).
  cbn [fst] in *. split; [|split].
  - rewrite Hkeys, map_map. cbn [fst]. apply map_id.
  - intros label Hin. rewrite Hget.
    assert (method_get (map (fun method => (method, 0)) COOKING_METHODS) label
            = Some 0) as ->.
    { unfold COOKING_METHODS in Hin.
      repeat (destruct Hin as [<-|Hin]; [reflexivity|]). destruct Hin. }
    reflexivity.
  - intros label Hin. rewrite Hget.
    assert (method_get (map (fun method => (method, 0)) COOKING_METHODS) label
            = None) as ->; [|reflexivity].
    apply method_get_unknown. apply not_true_is_false. intros Hex.
    apply existsb_exists in Hex as ([k n] & Hk & He). apply Hin.
    apply str_eqb_eq in He. cbn [fst] in He. subst k.
    apply in_map_iff in Hk as (method & [= <- <-] & Hm). exact Hm.
Qed.

Lemma side_dishes_tally_matches_witness :
  exists acc st',
    side_dishes_orchestrator flaky_create side_loads 5 7 (start 0%nat)
    = Ok (acc, st')
    /\ len (all_dishes acc) = 4
    /\ method_get (existing_methods acc) [29038; 29289]%N = Some 2
    /\ method_get (existing_methods acc) (lit "y") = None.
Proof.
  destruct (side_dishes_orchestrator flaky_create side_loads 5 7 (start 0%nat))
    as [[acc st']|e] eqn:E; [|vm_compute in E; discriminate].
  destruct (side_dishes_tally_matches nat flaky_create side_loads 5 7
              (start 0%nat) acc st' E) as (_ & Hin & Hout).
  assert (all_dishes acc = map side_item (lit "xyxy")) as Hall.
  { vm_compute in E. injection E as <- _. reflexivity. }
  exists acc, st'. split; [reflexivity|]. split; [now rewrite Hall|]. split.
  - rewrite (Hin [29038; 29289]%N); [now rewrite Hall|].
    right. left. reflexivity.
  - apply Hout. unfold COOKING_METHODS.
    intros Hin'. repeat (destruct Hin' as [Hx|Hin']; [discriminate|]).
    destruct Hin'.
Defined.

(** ** The merge and [main] of [gen_simple.py] *)

(** X9.  Only a missing file is taken for an empty document.  Any
    other failure to read it goes up, and a document whose top level
    is no object makes the assignment raise [TypeError]; in [main]
    either happens after the whole run and before anything is
    written. *)
Theorem merge_read_errors (World : Type)
    (create : World -> request -> result str * World)
    (loads : str -> option json) (st : state World) (all_main_dishes : json) :
  (forall e, e <> FileNotFoundError ->
      merge_simple (Raise e) all_main_dishes st = Raise e)
  /\ (forall document, is_object document = false ->
         merge_simple (Ok document) all_main_dishes st = Raise TypeError)
  /\ (forall fs p e,
         simple_orchestrator create loads BATCH_SIZE TOTAL_COUNT st = Ok p ->
         read_existing fs = Raise e -> e <> FileNotFoundError ->
         main create loads fs st = Raise e)
  /\ (forall fs p document,
         simple_orchestrator create loads BATCH_SIZE TOTAL_COUNT st = Ok p ->
         read_existing fs = Ok document -> is_object document = false ->
         main create loads fs st = Raise TypeError).
Proof.
  split; [|split; [|split]].
  - intros e He. destruct e; try reflexivity. congruence.
  - intros document Hd. destruct document; try reflexivity. discriminate.
  - intros fs p e Hp Hr He. unfold main. rewrite Hp, Hr. cbn [bind].
    destruct e; try reflexivity. congruence.
  - intros fs p document Hp Hr Hd. unfold main. rewrite Hp, Hr. cbn [bind].
    destruct document; try reflexivity. discriminate.
Qed.

Lemma dict_setitem_absent (fields : list (str * json)) k v :
  ~ In k (dict_keys fields) -> dict_setitem fields k v = fields ++ [(k, v)].
Proof.
  induction fields as [|[k0 w] fields IH]; simpl; auto.
  intros H. destruct (str_eqb k0 k) eqn:E.
  - apply str_eqb_eq in E. tauto.
  - rewrite IH; tauto.
Qed.

Lemma dict_setitem_twice (fields : list (str * json)) k v w :
  dict_setitem (dict_setitem fields k v) k w = dict_setitem fields k w.
Proof.
  induction fields as [|[k0 u] fields IH]; simpl.
  - now rewrite str_eqb_refl.
  - destruct (str_eqb k0 k) eqn:E; simpl; rewrite E; [reflexivity|].
    now rewrite IH.
Qed.

Lemma dict_keys_nodup (fields : list (str * json)) k v :
  NoDup (dict_keys fields) -> NoDup (dict_keys (dict_setitem fields k v)).
Proof.
  intros H. destruct (in_dec (list_eq_dec N.eq_dec) k (dict_keys fields))
    as [Hin|Hout].
  - now rewrite dict_keys_setitem.
  - rewrite (dict_setitem_absent _ _ _ Hout). unfold dict_keys.
    rewrite map_app. cbn [map fst]. apply NoDup_app; auto.
    + repeat constructor. intros [].
    + intros x Hx [<-|[]]. now apply Hout.
Qed.

(** X10.  A second merge supersedes the first: the document is what
    it would be had only the last run been merged.  The merge keeps
    the keys distinct, and a document without the key [simple] gets
    it after all its other keys. *)
Theorem rerun_supersedes (World : Type) (st st2 : state World)
    (fields : list (str * json)) (first second : json) :
  (exists merged,
      merge_simple (Ok (JObj fields)) first st = Ok (JObj merged, st)
      /\ merge_simple (Ok (JObj merged)) second st2
         = merge_simple (Ok (JObj fields)) second st2
      /\ (NoDup (dict_keys fields) -> NoDup (dict_keys merged)))
  /\ (~ In (lit "simple") (dict_keys fields) ->
      merge_simple (Ok (JObj fields)) first st
      = Ok (JObj (fields ++ [(lit "simple", first)]), st)).
Proof.
  split.
  - exists (dict_setitem fields (lit "simple") first).
    split; [reflexivity|]. split.
    + unfold merge_simple, load_categories. cbn [bind fst snd py_setitem].
      now rewrite dict_setitem_twice.
    + apply dict_keys_nodup.
  - intros H. unfold merge_simple, load_categories.
    cbn [bind fst snd py_setitem]. now rewrite dict_setitem_absent.
Qed.




(** ** The [main] of the scripts that go through the categories *)

Section CategoriesFacts.

Variable World : Type.
Variable generate : str -> category_info -> Z -> state World ->
                    result (list json * state World).
Variable per_category : Z.

Lemma dict_keys_app (a b : list (str * json)) :
  dict_keys (a ++ b) = dict_keys a ++ dict_keys b.
Proof. unfold dict_keys. apply map_app. Qed.

(** The loop over the categories adds one key per category, after
    the keys there were, each with a list. *)
Lemma generate_categories_shape categories : forall all (st : state World) all' st',
  generate_categories generate per_category categories all st = Ok (all', st') ->
  NoDup (dict_keys all ++ map fst categories) ->
  dict_keys all' = dict_keys all ++ map fst categories
  /\ (forallb (fun kv => is_array (snd kv)) all = true ->
      forallb (fun kv => is_array (snd kv)) all' = true).
Proof.
  induction categories as [|[k info] rest IH]; intros all st all' st';
    cbn [generate_categories].
  - intros [= <- <-] _. cbn [map]. now rewrite app_nil_r.
  - destruct (generate k info per_category st) as [[dishes st1]|e];
      cbn [bind fst snd]; [|discriminate].
    intros H Hnd. cbn [map fst] in Hnd.
    assert (~ In k (dict_keys all)) as Hout.
    { apply NoDup_remove_2 in Hnd. intros Hin. apply Hnd.
      apply in_or_app. now left. }
    rewrite (dict_setitem_absent _ _ _ Hout) in H.
    destruct (IH _ _ _ _ H) as (Hkeys & Harr).
    { rewrite dict_keys_app. cbn [dict_keys map fst].
      now rewrite <- app_assoc. }
    split.
    + rewrite Hkeys, dict_keys_app. cbn [dict_keys map fst].
      now rewrite <- app_assoc.
    + intros Hall. apply Harr. rewrite forallb_app, Hall. reflexivity.
Qed.

(** The summary of a document with the keys of [CATEGORIES] and a
    list under each goes through. *)
Lemma category_summary_returns (all : list (str * json)) :
  forall (st : state World),
  Forall (fun k => In k (map fst CATEGORIES)) (dict_keys all) ->
  forallb (fun kv => is_array (snd kv)) all = true ->
  exists st' evs,
    category_summary all st = Returned st'
    /\ trace st' = trace st ++ evs
    /\ pacing evs = [] /\ dumps evs = [].
Proof.
  induction all as [|[k v] all IH]; intros st Hk Ha; cbn [category_summary].
  - exists st, []. now rewrite app_nil_r.
  - cbn [dict_keys map fst] in Hk. inversion Hk as [|? ? Hin Hk']; subst.
    cbn [forallb snd] in Ha. apply andb_true_iff in Ha as [Hv Ha].
    assert (exists info, category_of CATEGORIES k = Some info) as (info & ->).
    { cbn [CATEGORIES map fst] in Hin.
      repeat (destruct Hin as [<-|Hin]; [eexists; reflexivity|]).
      destruct Hin. }
    destruct v; try discriminate. cbn [py_len].
    destruct (IH (print (MsgSummary (info_name info) (Z.of_nat (length items))) st)
                Hk' Ha) as (st' & evs & H & Ht & Hp & Hd).
    exists st', ([Print (MsgSummary (info_name info) (Z.of_nat (length items)))]
                 ++ evs).
    unfold print, emit in Ht. cbn [trace] in Ht.
    rewrite H, Ht, <- app_assoc. repeat split; auto.
Qed.

(** How the [main] that goes through the categories can end. *)
Lemma categories_main_cases (fs : files) (st : state World) :
  match categories_main generate per_category fs st with
  | Returned (document, st') =>
      exists fields st1 evs,
        document = JObj fields
        /\ generate_categories generate per_category CATEGORIES [] st
           = Ok (fields, st1)
        /\ dict_keys fields
           = [lit "omakase"; lit "hearty"; lit "fishMain"; lit "simple"]
        /\ forallb (fun kv => is_array (snd kv)) fields = true
        /\ write_error fs = None
        /\ trace st' = trace st1 ++ evs
        /\ dumps evs = [document] /\ pacing evs = []
  | Uncaught e =>
      generate_categories generate per_category CATEGORIES [] st = Raise e
      \/ write_error fs = Some e
  | UncaughtKeyError _ => False
  end.
Proof.
  unfold categories_main.
  destruct (generate_categories generate per_category CATEGORIES [] st)
    as [[all st1]|e] eqn:Hgen; [|now left].
  destruct (generate_categories_shape _ _ _ _ _ Hgen) as (Hkeys & Harr).
  { cbn. repeat constructor; cbn; intuition discriminate. }
  specialize (Harr eq_refl). cbn [dict_keys map app] in Hkeys.
  unfold dump. destruct (write_error fs) as [e|]; [now right|].
  destruct (category_summary_returns all
              (print MsgUpdated (emit (Dump (JObj all)) st1)))
    as (st' & evs & H & Ht & Hp & Hd); auto.
  { rewrite Hkeys. apply Forall_forall. auto. }
  rewrite H. exists all, st1, ([Dump (JObj all); Print MsgUpdated] ++ evs).
  split; [reflexivity|]. split; [reflexivity|]. split; [exact Hkeys|].
  split; [exact Harr|]. split; [reflexivity|]. split; [|split].
  - unfold print, emit in Ht. cbn [trace] in Ht.
    rewrite Ht, <- !app_assoc. reflexivity.
  - rewrite dumps_app, Hd. reflexivity.
  - rewrite pacing_app, Hp. reflexivity.
Qed.

End CategoriesFacts.


(** ** What the whole of [generate_main_dishes.py] costs *)

Section MainCostFacts.

Variable World : Type.
Variable create : World -> request -> result str * World.
Variable loads : str -> option json.

Lemma category_run_cost key info total (st : state World) dishes st' :
  generate_main_dishes_for_category create loads key info total st
  = Ok (dishes, st') ->
  let n := Z.of_nat (Z.to_nat (batch_count BATCH_SIZE total)) in
  exists evs,
    trace st' = trace st ++ evs
    /\ n <= calls (pacing evs) <= 3 * n
    /\ slept (pacing evs) = n + 3 * (calls (pacing evs) - n).
Proof.
  unfold generate_main_dishes_for_category.
  destruct (main_dishes_orchestrator create loads BATCH_SIZE key info total st)
    as [[acc st1]|e] eqn:H; cbn [bind fst snd]; [|discriminate].
  intros [= <- <-].
  exact (orchestrate_cost World unit BATCH_SIZE
           (main_dishes_batch create loads key info) no_tally
           (main_dishes_batch_paced World create loads key info)
           total tt st acc st1 H).
Qed.

Lemma generate_categories_cost total categories :
  forall all (st : state World) all' st',
  generate_categories (generate_main_dishes_for_category create loads) total
    categories all st = Ok (all', st') ->
  let n := Z.of_nat (Z.to_nat (batch_count BATCH_SIZE total))
           * Z.of_nat (length categories) in
  exists evs,
    trace st' = trace st ++ evs
    /\ n <= calls (pacing evs) <= 3 * n
    /\ slept (pacing evs) = n + 3 * (calls (pacing evs) - n).
Proof.
  induction categories as [|[k info] rest IH]; intros all st all' st';
    cbn [generate_categories].
  - intros [= <- <-]. exists []. rewrite app_nil_r.
    cbn [length pacing calls slept]. repeat split; lia.
  - destruct (generate_main_dishes_for_category create loads k info total st)
      as [[dishes st1]|e] eqn:Hrun; cbn [bind fst snd]; [|discriminate].
    intros H. destruct (category_run_cost _ _ _ _ _ _ Hrun) as (evs & Ht & Hc & Hs).
    destruct (IH _ _ _ _ H) as (evs' & Ht' & Hc' & Hs').
    exists (evs ++ evs'). rewrite Ht', Ht, <- app_assoc. split; [reflexivity|].
    rewrite pacing_app, calls_app, slept_app. cbn [length].
    rewrite Nat2Z.inj_succ. split; nia.
Qed.

End MainCostFacts.

(** X13.  When the [main] of [generate_main_dishes.py] returns, its
    four runs of ten batches have made between 40 and 120 calls and
    slept one second per batch and three per call beyond the first
    of a batch: between 40 and 280 seconds. *)
Theorem main_dishes_main_cost (World : Type)
    (create : World -> request -> result str * World)
    (loads : str -> option json) fs (st : state World) document st' :
  generate_main_dishes_main create loads fs st = Returned (document, st') ->
  exists evs,
    trace st' = trace st ++ evs
    /\ 40 <= calls (pacing evs) <= 120
    /\ slept (pacing evs) = 40 + 3 * (calls (pacing evs) - 40)
    /\ 40 <= slept (pacing evs) <= 280.
Proof.
  intros H.
  pose proof (categories_main_cases World
                (generate_main_dishes_for_category create loads)
                MAIN_DISHES_PER_CATEGORY fs st) as Hc.
  unfold generate_main_dishes_main in H. rewrite H in Hc.
  destruct Hc as (fields & st1 & evs & _ & Hgen & _ & _ & _ & Ht & _ & Hp).
  destruct (generate_categories_cost World create loads _ _ _ _ _ _ Hgen)
    as (evs0 & Ht0 & Hc0 & Hs0).
  change (Z.of_nat (Z.to_nat (batch_count BATCH_SIZE MAIN_DISHES_PER_CATEGORY))
          * Z.of_nat (length CATEGORIES)) with 40 in Hc0, Hs0.
  exists (evs0 ++ evs). rewrite Ht, Ht0, <- app_assoc. split; [reflexivity|].
  rewrite pacing_app, Hp, app_nil_r. repeat split; lia.
Qed.

Lemma main_dishes_main_cost_witness :
  exists document st' evs,
    generate_main_dishes_main exact_create toy_loads no_document (start tt)
    = Returned (document, st')
    /\ trace st' = trace (start tt) ++ evs
    /\ 40 <= calls (pacing evs) <= 120
    /\ 40 <= slept (pacing evs) <= 280.
Proof.
  destruct (generate_main_dishes_main exact_create toy_loads no_document
              (start tt)) as [[document st']|e|k] eqn:E;
    [|vm_compute in E; discriminate|vm_compute in E; discriminate].
  destruct (main_dishes_main_cost unit exact_create toy_loads no_document
              (start tt) document st' E) as (evs & Ht & Hc & _ & Hs).
  exists document, st', evs. split; [reflexivity|]. split; [exact Ht|].
  split; [exact Hc | exact Hs].
Defined.

(** ** When a run returns *)

Lemma item_names_objects (items : list json) names :
  comprehension item_name items = Ok names -> forallb is_object items = true.
Proof.
  revert names; induction items as [|md items IH]; intros names; cbn; auto.
  destruct md; cbn; try discriminate.
  destruct (comprehension item_name items) as [ns|]; cbn; [|discriminate].
  intros _. now apply (IH ns).
Qed.

Section ReturnFacts.

Variable World : Type.
Variable limit : Z.
Variable batch : Z -> list json -> unit -> state World -> json * state World.

(** A turn of the loop that does not raise had a well-formed batch. *)
Lemma batch_body_ok_inv total batches acc (st : state World) n p :
  batch_body limit batch no_tally total batches acc st n = Ok p ->
  well_formed (fst (call_batch limit batch total batches (acc, st) n)) = true.
Proof.
  rewrite batch_body_unfold. cbv zeta.
  destruct (fst (call_batch limit batch total batches (acc, st) n))
    as [|b|z|f|s|items|fields] eqn:Hb; cbn [py_bool well_formed py_iter bind].
  - reflexivity.
  - destruct b; [discriminate | reflexivity].
  - destruct (z =? 0); [reflexivity | discriminate].
  - destruct f as [| |neg m e]; try discriminate.
    destruct (m =? 0)%N; [reflexivity | discriminate].
  - destruct s; cbn; [reflexivity | discriminate].
  - destruct items as [|md items]; [reflexivity|].
    cbn [length Nat.eqb negb].
    destruct (comprehension item_name (md :: items)) as [names|] eqn:Hn;
      cbn [bind]; [|discriminate].
    intros _. apply (item_names_objects _ _ Hn).
  - destruct fields as [|[k v] fields]; cbn; [reflexivity | discriminate].
Qed.

End ReturnFacts.

(** X14.  A run of the main-dish orchestrator returns exactly when the
    batch limit is not zero and every batch comes back empty or as a
    list of objects.  A batch that is a non-empty string or dict, or
    a list holding anything but objects, aborts the run with an
    exception. *)
Theorem run_returns_iff_well_formed (World : Type)
    (create : World -> request -> result str * World)
    (loads : str -> option json) limit key info total (st : state World) :
  (exists acc st',
      main_dishes_orchestrator create loads limit key info total st
      = Ok (acc, st'))
  <-> (limit <> 0
       /\ forall k, (k < Z.to_nat (batch_count limit total))%nat ->
          forall b,
            batch_result limit (main_dishes_batch create loads key info)
              no_tally total tt (print (MsgGenerating total) st) k = Ok b ->
            well_formed b = true).
Proof.
  split.
  - intros (acc & st' & H).
    pose proof (orchestrate_limit _ _ _ _ _ _ _ H) as Hl. split; [exact Hl|].
    destruct (orchestrate_inv _ _ _ _ _ _ _ _ _ _ Hl H) as (st1 & Hb & _).
    intros k Hk b Hres.
    destruct (before_batch_prefix _ _ _ _ _ _ _ _ _ _ Hb (S k) ltac:(lia))
      as (q' & Hq').
    destruct (before_batch_inv _ _ _ _ _ _ _ _ _ _ Hq') as ([acc0 st0] & Hq & Hbody).
    rewrite (batch_result_at _ _ _ _ _ _ _ _ _ _ Hq) in Hres.
    injection Hres as <-. cbn [fst snd] in Hbody.
    apply (batch_body_ok_inv _ _ _ _ _ _ _ _ _ Hbody).
  - intros (Hl & Hwf).
    destruct (run_survives World unit limit
                (main_dishes_batch create loads key info) no_tally
                (main_dishes_batch_quiet World create loads key info)
                total tt st Hl no_tally_total Hwf)
      as (acc & st' & evs & H & _).
    now exists acc, st'.
Qed.

(** ** The [main] of [generate_side_dishes.py] *)




(** ** The text handed to [json.loads] *)

Section StripFacts.

Implicit Types s y : str.

Lemma lstrip_length s : (length (lstrip s) <= length s)%nat.
Proof.
  induction s as [|c s IH]; simpl; auto.
  destruct (isspace c); simpl; lia.
Qed.

Lemma lstrip_idempotent s : lstrip (lstrip s) = lstrip s.
Proof.
  induction s as [|c s IH]; simpl; auto.
  destruct (isspace c) eqn:E; auto. simpl. now rewrite E.
Qed.

Lemma lstrip_app_last l c :
  isspace c = false -> lstrip (l ++ [c]) = lstrip l ++ [c].
Proof.
  intros Hc. induction l as [|d l IH]; simpl.
  - now rewrite Hc.
  - destruct (isspace d); auto.
Qed.

Lemma rstrip_cons c s : isspace c = false -> rstrip (c :: s) = c :: rstrip s.
Proof.
  intros Hc. unfold rstrip. simpl rev.
  now rewrite (lstrip_app_last _ _ Hc), rev_app_distr.
Qed.

Lemma lstrip_rstrip y : lstrip y = y -> lstrip (rstrip y) = rstrip y.
Proof.
  destruct y as [|c y]; [reflexivity|]. simpl.
  destruct (isspace c) eqn:Hc.
  - intros H. pose proof (lstrip_length y) as Hl. rewrite H in Hl.
    simpl in Hl. lia.
  - intros _. rewrite (rstrip_cons _ _ Hc). simpl. now rewrite Hc.
Qed.

Lemma rstrip_idempotent s : rstrip (rstrip s) = rstrip s.
Proof.
  unfold rstrip. now rewrite rev_involutive, lstrip_idempotent.
Qed.

Lemma strip_idempotent s : strip (strip s) = strip s.
Proof.
  unfold strip.
  rewrite (lstrip_rstrip (lstrip s) (lstrip_idempotent s)).
  apply rstrip_idempotent.
Qed.

End StripFacts.

(** X16.  Whatever the reply, the text the batch generator hands to
    [json.loads] has no white space around it, holds no fence when
    the reply held one, and is left as it is by a second
    extraction. *)
Theorem extracted_text_is_clean (content : str) :
  exists text,
    response_extractor (strip content) = Ok text
    /\ strip text = text
    /\ response_extractor text = Ok text
    /\ (contains FENCE (strip content) = true -> absent FENCE text).
Proof.
  destruct (extractor_total (strip content)) as (text & E & Hf).
  exists text. split; [exact E|].
  pose proof (extractor_idempotent (strip content)) as Hi.
  unfold extract_twice in Hi. rewrite E in Hi. cbn [bind] in Hi.
  split; [|split; [exact Hi | exact Hf]].
  destruct (find FENCE_JSON (strip content)) as [i|] eqn:EJ.
  - rewrite (extractor_json _ _ EJ) in E. injection E as <-.
    apply strip_idempotent.
  - destruct (find FENCE (strip content)) as [i|] eqn:EF.
    + rewrite (extractor_fence _ _ EJ EF) in E. injection E as <-.
      apply strip_idempotent.
    + rewrite (extractor_bare _ (find_none _ _ EF)) in E. injection E as <-.
      apply strip_idempotent.
Qed.
